(** * Social Contact Widget Generator: validator and code generator

    A shallow embedding of the two pure functions that make up the core of
    the configurator: [getValidationError] (Configurator.tsx) and
    [generateWidgetCode] (CodeOutput.tsx), together with the configuration
    edit [handlePlatformFieldChange].

    JavaScript strings are sequences of UTF-16 code units; they are modelled
    as lists of [N].  Exceptions are modelled with the [result] type. *)

From Stdlib Require Import List NArith ZArith Bool Ascii String Lia Permutation Arith.
Import ListNotations.

(* ================================================================== *)
(** ** JavaScript strings *)

Module JS.

(** A string value: its UTF-16 code units, in order. *)
Definition jsstring := list N.

(** Source text literal.  The literals of the TypeScript source are ASCII.
    A backquote cannot occur inside a template literal, so in the
    literals of this file a backquote stands for the double quote
    (code unit 34). *)
Fixpoint lit (s : string) : jsstring :=
  match s with
  | EmptyString => []
  | String a s' =>
      (if (N_of_ascii a =? 96)%N then 34%N else N_of_ascii a) :: lit s'
  end.

Arguments lit s%_string.

Definition code (a : ascii) : N := N_of_ascii a.
Arguments code a%_char.

(** Code unit ranges. *)
Definition between (lo hi c : N) : bool := ((lo <=? c) && (c <=? hi))%N.

(** ECMAScript WhiteSpace and LineTerminator code units: the set that
    [String.prototype.trim] strips and that [\s] matches. *)
Definition isLineTerminator (c : N) : bool :=
  ((c =? 0x0A) || (c =? 0x0D) || (c =? 0x2028) || (c =? 0x2029))%N.

Definition isWhiteSpace (c : N) : bool :=
  ((c =? 0x09) || (c =? 0x0B) || (c =? 0x0C) || (c =? 0x20) || (c =? 0xA0)
   || (c =? 0x1680) || between 0x2000 0x200A c || (c =? 0x202F)
   || (c =? 0x205F) || (c =? 0x3000) || (c =? 0xFEFF))%N
  || isLineTerminator c.

(** [\d] *)
Definition isDigit (c : N) : bool := between 48 57 c.

(** [[a-zA-Z0-9_]] *)
Definition isWordChar (c : N) : bool :=
  between 97 122 c || between 65 90 c || between 48 57 c || (c =? 95)%N.

Fixpoint dropWhile (p : N -> bool) (s : jsstring) : jsstring :=
  match s with
  | [] => []
  | c :: s' => if p c then dropWhile p s' else s
  end.

(** [String.prototype.trim] *)
Definition trimStart (s : jsstring) : jsstring := dropWhile isWhiteSpace s.
Definition trimEnd (s : jsstring) : jsstring := rev (dropWhile isWhiteSpace (rev s)).
Definition trim (s : jsstring) : jsstring := trimEnd (trimStart s).

(** Truthiness of a string: the empty string is falsy. *)
Definition truthy (s : jsstring) : bool :=
  match s with [] => false | _ => true end.

(** [a || b] on strings. *)
Definition or_else (a b : jsstring) : jsstring := if truthy a then a else b.

(** [a || b] where [a] may be [undefined]. *)
Definition opt_or_else (a : option jsstring) (b : jsstring) : jsstring :=
  match a with
  | Some s => or_else s b
  | None => b
  end.

(** [String.prototype.startsWith] *)
Fixpoint startsWith (pre s : jsstring) : bool :=
  match pre, s with
  | [], _ => true
  | p :: pre', c :: s' => (p =? c)%N && startsWith pre' s'
  | _ :: _, [] => false
  end.

(** [String.prototype.includes] for a one-unit needle. *)
Definition includesChar (c : N) (s : jsstring) : bool :=
  existsb (fun d => (d =? c)%N) s.

(** [Array.prototype.join] *)
Fixpoint join (sep : jsstring) (l : list jsstring) : jsstring :=
  match l with
  | [] => []
  | [x] => x
  | x :: rest => x ++ sep ++ join sep rest
  end.

(** Exceptions raised by the builtins the program calls. *)
Inductive exn := TypeError | URIError | Error.

Inductive result (A : Type) :=
| Ok (a : A)
| Throw (e : exn).
Arguments Ok {A} a.
Arguments Throw {A} e.

Definition bind {A B} (r : result A) (f : A -> result B) : result B :=
  match r with
  | Ok a => f a
  | Throw e => Throw e
  end.

(** [try { body } catch (_) { handler }] *)
Definition try_catch {A} (body : result A) (handler : exn -> A) : A :=
  match body with
  | Ok a => a
  | Throw e => handler e
  end.

(** [Array.prototype.map] with a callback that may throw: the first
    exception aborts the traversal. *)
Fixpoint mapM {A B} (f : A -> result B) (l : list A) : result (list B) :=
  match l with
  | [] => Ok []
  | x :: rest =>
      bind (f x) (fun y => bind (mapM f rest) (fun ys => Ok (y :: ys)))
  end.

(** [Array.prototype.filter] with a predicate that may throw. *)
Fixpoint filterM {A} (f : A -> result bool) (l : list A) : result (list A) :=
  match l with
  | [] => Ok []
  | x :: rest =>
      bind (f x) (fun b =>
      bind (filterM f rest) (fun ys => Ok (if b then x :: ys else ys)))
  end.

End JS.
Import JS.

Notation "x <- a ;; b" := (bind a (fun x => b))
  (at level 61, a at next level, right associativity).

(* ================================================================== *)
(** ** Regular expressions

    The matcher follows the ECMAScript semantics of patterns: a matcher
    takes a state (the index reached and the input that remains) and a
    continuation.  Only the constructs the program's patterns use are
    present.  [test] is [RegExp.prototype.test] for a pattern without the
    [g] and [y] flags. *)

Module RegExp.

Inductive regex :=
| Chr (p : N -> bool)                       (* a class, a literal, [.] *)
| Bos                                       (* [^] *)
| Eos                                       (* [$] *)
| Seq (r1 r2 : regex)
| Rep (r : regex) (lo : nat) (hi : option nat)  (* [r{lo,hi}], greedy *)
| Look (r : regex).                         (* [(?=r)] *)

Definition state := (nat * jsstring)%type.

Definition decr (hi : option nat) : option nat := option_map pred hi.

(** RepeatMatcher: at least [lo] and at most [hi] iterations of the
    matcher [mr], an iteration that is not required and consumes nothing
    being refused.  Every iteration either is required or advances the
    index, so [lo] plus the length of the remaining input bounds their
    number; [fuel] counts them. *)
Fixpoint rep (mr : state -> (state -> bool) -> bool) (k : state -> bool)
    (fuel lo : nat) (hi : option nat) (x : state) {struct fuel} : bool :=
  match fuel with
  | O => false
  | S fuel' =>
      match hi with
      | Some O => k x
      | _ =>
          mr x (fun y =>
                  if (lo =? 0) && (fst y =? fst x) then false
                  else rep mr k fuel' (pred lo) (decr hi) y)
          || ((lo =? 0) && k x)
      end
  end.

Fixpoint m (r : regex) (x : state) (k : state -> bool) {struct r} : bool :=
  match r with
  | Chr p =>
      match snd x with
      | c :: s' => p c && k (S (fst x), s')
      | [] => false
      end
  | Bos => (fst x =? 0) && k x
  | Eos => match snd x with [] => k x | _ :: _ => false end
  | Seq r1 r2 => m r1 x (fun y => m r2 y k)
  | Look r1 => m r1 x (fun _ => true) && k x
  | Rep r1 lo hi => rep (m r1) k (S (lo + List.length (snd x))) lo hi x
  end.

(** Try the pattern at every start index, left to right. *)
Fixpoint search (r : regex) (i : nat) (s : jsstring) : bool :=
  m r (i, s) (fun _ => true)
  || match s with
     | [] => false
     | _ :: s' => search r (S i) s'
     end.

Definition test (r : regex) (s : jsstring) : bool := search r 0 s.

(** The quantifiers [r*], [r+], [r?] and [r{n}]. *)
Definition many (r : regex) : regex := Rep r 0 None.
Definition many1 (r : regex) : regex := Rep r 1 None.
Definition maybe (r : regex) : regex := Rep r 0 (Some 1).
Definition exactly (n : nat) (r : regex) : regex := Rep r n (Some n).

(** A literal character. *)
Definition chr (a : ascii) : regex := Chr (fun c => (c =? code a)%N).

(** A literal ASCII letter under the [i] flag.  Canonicalize never maps a
    code unit above 127 to one below 128, so only the two ASCII cases of
    the letter match. *)
Definition chr_i (lower : ascii) : regex :=
  Chr (fun c => (c =? code lower)%N || (c =? code lower - 32)%N).

(** [.] (without the [s] flag) *)
Definition dot : regex := Chr (fun c => negb (isLineTerminator c)).

End RegExp.
Import RegExp.

Notation "a @@ b" := (Seq a b) (at level 60, right associativity).

(* ================================================================== *)
(** ** Data model (types.ts) *)

Inductive Platform := messenger | whatsapp | telegram | phone | email.
Inductive Position := bottom_right | bottom_left.
Inductive ButtonAnimation := none | pulse | bounce | fade | shake.
Inductive WidgetShape := rounded | square.
Inductive MenuSpacing := compact | default | relaxed.
Inductive EmailLinkType := mailto | url.

(** An optional property is [None] when it is absent ([undefined]). *)
Record PlatformConfig := {
  enabled : bool;
  contactId : jsstring;
  predefinedMessage : option jsstring;
  emailLinkType : option EmailLinkType;
  customIconSvg : option jsstring;
  color : option jsstring
}.

(** [Record<Platform, PlatformConfig>]: the object's own properties in
    insertion order.  The type promises one entry for each platform; see
    [typed]. *)
Definition PlatformMap := list (Platform * PlatformConfig).

Record WidgetConfig := {
  platforms : PlatformMap;
  headerText : jsstring;
  headerBgColor : jsstring;
  headerTextColor : jsstring;
  mainButtonColor : jsstring;
  mainIconColor : jsstring;
  position : Position;
  buttonAnimation : ButtonAnimation;
  widgetShape : WidgetShape;
  menuSpacing : MenuSpacing
}.

Definition Platform_eqb (a b : Platform) : bool :=
  match a, b with
  | messenger, messenger | whatsapp, whatsapp | telegram, telegram
  | phone, phone | email, email => true
  | _, _ => false
  end.

(** Property read [o[k]]: [None] is [undefined]. *)
Fixpoint get (k : Platform) (o : PlatformMap) : option PlatformConfig :=
  match o with
  | [] => None
  | (k', v) :: o' => if Platform_eqb k k' then Some v else get k o'
  end.

(** [{...o, [k]: v}]: an existing key keeps its place, a new key goes last. *)
Fixpoint set (k : Platform) (v : PlatformConfig) (o : PlatformMap) : PlatformMap :=
  match o with
  | [] => [(k, v)]
  | (k', v') :: o' =>
      if Platform_eqb k k' then (k', v) :: o' else (k', v') :: set k v o'
  end.

Definition keys (o : PlatformMap) : list Platform := map fst o.

(** What the type [Record<Platform, PlatformConfig>] says of a value: its
    keys are distinct (as an object's are) and every platform is one. *)
Definition typed (o : PlatformMap) : Prop :=
  NoDup (keys o) /\ forall p, In p (keys o).

(** [config.platforms[p]] followed by a property read, which throws a
    TypeError on [undefined]. *)
Definition platformOf (config : WidgetConfig) (p : Platform) : result PlatformConfig :=
  match get p (platforms config) with
  | Some pc => Ok pc
  | None => Throw TypeError
  end.

(* ================================================================== *)
(** ** Constants (constants.ts) *)

Record PlatformEntry := { id : Platform; name : jsstring }.

Definition PLATFORMS : list PlatformEntry :=
  [ {| id := whatsapp; name := lit "WhatsApp" |};
    {| id := messenger; name := lit "Facebook Messenger" |};
    {| id := telegram; name := lit "Telegram" |};
    {| id := phone; name := lit "Phone Call" |};
    {| id := email; name := lit "Email / Contact Form" |} ].

Definition plain (on : bool) (cid : jsstring) : PlatformConfig :=
  {| enabled := on; contactId := cid; predefinedMessage := None;
     emailLinkType := None; customIconSvg := None; color := None |}.

Definition DEFAULT_CONFIG : WidgetConfig :=
  {| platforms :=
       [ (whatsapp,
          {| enabled := true; contactId := lit "15551234567";
             predefinedMessage :=
               Some (lit "Hello! I have a question about your services.");
             emailLinkType := None; customIconSvg := None; color := None |});
         (messenger, plain true (lit "Meta"));
         (telegram, plain true (lit "mychannel"));
         (phone, plain false (lit "15551234567"));
         (email,
          {| enabled := false; contactId := lit "hello@example.com";
             predefinedMessage := None; emailLinkType := Some mailto;
             customIconSvg := None; color := None |}) ];
     headerText := lit "Contact Us";
     headerBgColor := lit "#128C7E";
     headerTextColor := lit "#FFFFFF";
     mainButtonColor := lit "#25D366";
     mainIconColor := lit "#FFFFFF";
     position := bottom_right;
     buttonAnimation := pulse;
     widgetShape := rounded;
     menuSpacing := default |}.

Record PlatformDetails := {
  placeholder : jsstring;
  label : jsstring;
  defaultColor : jsstring;
  helpText : jsstring;
  supportsPrefilledMessage : bool;
  cta : jsstring
}.

Definition PLATFORM_DETAILS (p : Platform) : PlatformDetails :=
  match p with
  | whatsapp =>
      {| placeholder := lit "e.g., 15551234567";
         label := lit "WhatsApp Number";
         defaultColor := lit "#25D366";
         helpText := lit "Country code + number, digits only (e.g., 15551234567).";
         supportsPrefilledMessage := true;
         cta := lit "Chat with us" |}
  | messenger =>
      {| placeholder := lit "e.g., Meta";
         label := lit "Facebook Page ID/Username";
         defaultColor := lit "#0084FF";
         helpText := lit "Your page's unique username or ID.";
         supportsPrefilledMessage := false;
         cta := lit "Chat with us" |}
  | telegram =>
      {| placeholder := lit "e.g., mychannel";
         label := lit "Telegram Username";
         defaultColor := lit "#2AABEE";
         helpText := lit "Your public Telegram username (without @).";
         supportsPrefilledMessage := false;
         cta := lit "Chat with us" |}
  | phone =>
      {| placeholder := lit "e.g., 15551234567";
         label := lit "Phone Number";
         defaultColor := lit "#4CAF50";
         helpText := lit "Include country code for international calls.";
         supportsPrefilledMessage := false;
         cta := lit "Call us" |}
  | email =>
      {| placeholder := lit "e.g., hello@example.com or /contact";
         label := lit "Email Address / Contact URL";
         defaultColor := lit "#757575";
         helpText := lit "Your email address or a link to your contact page.";
         supportsPrefilledMessage := false;
         cta := lit "Email us" |}
  end.

(* ================================================================== *)
(** ** Validator (Configurator.tsx) *)

Module Patterns.

(** [/^\d+$/] *)
Definition digits_only : regex := Bos @@ many1 (Chr isDigit) @@ Eos.

(** [/\s/] *)
Definition a_space : regex := Chr isWhiteSpace.

(** [/^[a-zA-Z0-9_]{5,32}$/] *)
Definition telegram_name : regex := Bos @@ Rep (Chr isWordChar) 5 (Some 32) @@ Eos.

(** [[\d\s()+-]] *)
Definition isPhoneChar (c : N) : bool :=
  isDigit c || isWhiteSpace c
  || (c =? code "(")%N || (c =? code ")")%N
  || (c =? code "+")%N || (c =? code "-")%N.

(** [/^(?=.*\d{7})[\d\s()+-]+$/] *)
Definition phone_number : regex :=
  Bos @@ Look (many dot @@ exactly 7 (Chr isDigit)) @@ many1 (Chr isPhoneChar) @@ Eos.

(** [[^\s@]] *)
Definition notSpaceOrAt (c : N) : bool :=
  negb (isWhiteSpace c || (c =? code "@")%N).

(** [/^[^\s@]+@[^\s@]+\.[^\s@]+$/] *)
Definition emailRegex : regex :=
  Bos @@ many1 (Chr notSpaceOrAt) @@ chr "@" @@ many1 (Chr notSpaceOrAt)
      @@ chr "." @@ many1 (Chr notSpaceOrAt) @@ Eos.

(** [/^https?:\/\//i] *)
Definition http_scheme : regex :=
  Bos @@ chr_i "h" @@ chr_i "t" @@ chr_i "t" @@ chr_i "p" @@ maybe (chr_i "s")
      @@ chr ":" @@ chr "/" @@ chr "/".

End Patterns.

Section Validator.

(** [new URL(s).hostname]: the URL parser of the host environment.  [Throw]
    when the constructor throws. *)
Variable URL_hostname : jsstring -> result jsstring.

(** A validator returns [None] for [undefined] (no error) and [Some msg]
    for an error message. *)
Definition validators_whatsapp (value : jsstring) : option jsstring :=
  let trimmedValue := trim value in
  if negb (truthy trimmedValue) then Some (lit "WhatsApp number is required.")
  else if negb (test Patterns.digits_only trimmedValue)
  then Some (lit "Please enter digits only, without `+` or spaces.")
  else if (List.length trimmedValue <? 7) || (15 <? List.length trimmedValue)
  then Some (lit "Number must be between 7 and 15 digits.")
  else None.

Definition validators_messenger (value : jsstring) : option jsstring :=
  let trimmedValue := trim value in
  if negb (truthy trimmedValue) then Some (lit "Page ID or username is required.")
  else if test Patterns.a_space trimmedValue then Some (lit "Cannot contain spaces.")
  else None.

Definition validators_telegram (value : jsstring) : option jsstring :=
  let trimmedValue := trim value in
  if negb (truthy trimmedValue) then Some (lit "Telegram username is required.")
  else if negb (test Patterns.telegram_name trimmedValue)
  then Some (lit "Must be 5-32 letters, numbers, or underscores.")
  else None.

Definition validators_phone (value : jsstring) : option jsstring :=
  let trimmedValue := trim value in
  if negb (truthy trimmedValue) then Some (lit "Phone number is required.")
  else if negb (test Patterns.phone_number trimmedValue)
  then Some (lit "Please enter a valid phone number.")
  else None.

Definition validators_email (value : jsstring) : option jsstring :=
  let trimmedValue := trim value in
  if negb (truthy trimmedValue) then Some (lit "Email address is required.")
  else if test Patterns.emailRegex trimmedValue then None
  else Some (lit "Please enter a valid email address.").

Definition validators_url (value : jsstring) : option jsstring :=
  let trimmedValue := trim value in
  if negb (truthy trimmedValue) then Some (lit "URL is required.")
  else if startsWith (lit "/") trimmedValue || startsWith (lit "#") trimmedValue
  then None
  else
    let testUrl :=
      if negb (test Patterns.http_scheme trimmedValue)
      then lit "https://" ++ trimmedValue
      else trimmedValue in
    try_catch
      (hostname <- URL_hostname testUrl ;;
       if negb (truthy hostname) || negb (includesChar (code ".") hostname)
       then Throw Error
       else Ok None)
      (fun _ =>
         Some (lit "Please enter a valid URL (e.g., https://example.com) or path (e.g., /contact).")).

(** The [default] branch of the switch ([return undefined]) is not
    reached at a value of type [Platform]. *)
Definition getValidationError (platformId : Platform) (pConfig : PlatformConfig)
  : option jsstring :=
  let contactId := or_else (contactId pConfig) [] in
  match platformId with
  | whatsapp => validators_whatsapp contactId
  | messenger => validators_messenger contactId
  | telegram => validators_telegram contactId
  | phone => validators_phone contactId
  | email =>
      match emailLinkType pConfig with
      | Some mailto => validators_email contactId
      | _ => validators_url contactId
      end
  end.

End Validator.

(* ================================================================== *)
(** ** [encodeURIComponent] *)

Module URI.

Definition isHighSurrogate (c : N) : bool := between 0xD800 0xDBFF c.
Definition isLowSurrogate (c : N) : bool := between 0xDC00 0xDFFF c.

(** uriUnescaped: letters, digits and the marks [-_.!~*'()] *)
Definition isUnescaped (c : N) : bool :=
  between 97 122 c || between 65 90 c || between 48 57 c
  || (c =? code "-")%N || (c =? code "_")%N || (c =? code ".")%N
  || (c =? code "!")%N || (c =? code "~")%N || (c =? code "*")%N
  || (c =? code "'")%N || (c =? code "(")%N || (c =? code ")")%N.

Definition hexDigit (d : N) : N :=
  if (d <? 10)%N then (48 + d)%N else (55 + d)%N.

(** ["%XX"], upper case *)
Definition percent (octet : N) : jsstring :=
  [code "%"; hexDigit (octet / 16); hexDigit (octet mod 16)]%N.

(** The UTF-8 octets of a code point. *)
Definition utf8 (cp : N) : list N :=
  (if cp <? 0x80 then [cp]
   else if cp <? 0x800 then [0xC0 + cp / 64; 0x80 + cp mod 64]
   else if cp <? 0x10000
   then [0xE0 + cp / 4096; 0x80 + (cp / 64) mod 64; 0x80 + cp mod 64]
   else [0xF0 + cp / 262144; 0x80 + (cp / 4096) mod 64;
         0x80 + (cp / 64) mod 64; 0x80 + cp mod 64])%N.

Definition escape (cp : N) : jsstring := flat_map percent (utf8 cp).

(** UTF16SurrogatePairToCodePoint *)
Definition codePoint (lead trail : N) : N :=
  ((lead - 0xD800) * 0x400 + (trail - 0xDC00) + 0x10000)%N.

(** Encode(string, uriUnescaped): a URIError on an unpaired surrogate. *)
Fixpoint encodeURIComponent (s : jsstring) : result jsstring :=
  match s with
  | [] => Ok []
  | c :: rest =>
      if isUnescaped c then
        r <- encodeURIComponent rest ;; Ok (c :: r)
      else if isHighSurrogate c then
        match rest with
        | d :: rest' =>
            if isLowSurrogate d then
              r <- encodeURIComponent rest' ;; Ok (escape (codePoint c d) ++ r)
            else Throw URIError
        | [] => Throw URIError
        end
      else if isLowSurrogate c then Throw URIError
      else
        r <- encodeURIComponent rest ;; Ok (escape c ++ r)
  end.

(** [String.prototype.isWellFormed]: no unpaired surrogate. *)
Fixpoint isWellFormed (s : jsstring) : bool :=
  match s with
  | [] => true
  | c :: rest =>
      if isHighSurrogate c then
        match rest with
        | d :: rest' => isLowSurrogate d && isWellFormed rest'
        | [] => false
        end
      else negb (isLowSurrogate c) && isWellFormed rest
  end.

End URI.
Import URI.

(* ================================================================== *)
(** ** Code generator (CodeOutput.tsx) *)

(** [s.replace(/\s+/g, '')]: scanning left to right, a maximal run of
    white space is matched and replaced by the empty string; any other
    unit is copied.  [in_run] is the scan inside a match of [\s+]. *)
Fixpoint removeSpaceRuns (s : jsstring) : jsstring :=
  match s with
  | [] => []
  | c :: s' => if isWhiteSpace c then in_run s' else c :: removeSpaceRuns s'
  end
with in_run (s : jsstring) : jsstring :=
  match s with
  | [] => []
  | c :: s' => if isWhiteSpace c then in_run s' else c :: removeSpaceRuns s'
  end.

(** The [default] branch of the switch ([return '#']) is not reached at
    a value of type [Platform]. *)
Definition getPlatformLink (platform : Platform) (platformConfig : PlatformConfig)
  : result jsstring :=
  let contactId := contactId platformConfig in
  match platform with
  | whatsapp =>
      match predefinedMessage platformConfig with
      | Some predefinedMessage =>
          if truthy predefinedMessage then
            encodedMessage <- encodeURIComponent predefinedMessage ;;
            Ok (lit "https://wa.me/" ++ contactId ++ lit "?text=" ++ encodedMessage)
          else Ok (lit "https://wa.me/" ++ contactId)
      | None => Ok (lit "https://wa.me/" ++ contactId)
      end
  | messenger => Ok (lit "https://m.me/" ++ contactId)
  | telegram => Ok (lit "https://t.me/" ++ contactId)
  | phone => Ok (lit "tel:" ++ removeSpaceRuns contactId)
  | email =>
      match emailLinkType platformConfig with
      | Some mailto => Ok (lit "mailto:" ++ contactId)
      | _ => Ok contactId
      end
  end.

Definition getAnimationCss (animation : ButtonAnimation) : jsstring :=
  match animation with
  | pulse => lit "
  .scw-fab {
    animation: scw-pulse 2s infinite cubic-bezier(0.4, 0, 0.6, 1);
  }
  @keyframes scw-pulse {
    0%, 100% { transform: scale(1); }
    50% { transform: scale(1.1); }
  }"
  | bounce => lit "
  .scw-fab {
    animation: scw-bounce 1.5s infinite ease-in-out;
  }
  @keyframes scw-bounce {
    0%, 100% { transform: translateY(0); }
    50% { transform: translateY(-15%); }
  }"
  | fade => lit "
  .scw-fab {
    animation: scw-fade 2.5s infinite linear;
  }
  @keyframes scw-fade {
    0%, 100% { opacity: 1; }
    50% { opacity: 0.6; }
  }"
  | shake => lit "
  .scw-fab {
    animation: scw-shake 0.8s infinite ease-in-out;
  }
  @keyframes scw-shake {
    0%, 100% { transform: translateX(0); }
    10%, 30%, 50%, 70%, 90% { transform: translateX(-5px); }
    20%, 40%, 60%, 80% { transform: translateX(5px); }
  }"
  | none => []
  end.

Definition spacingValues (s : MenuSpacing) : jsstring :=
  match s with
  | compact => lit "0.125rem"
  | default => lit "0.25rem"
  | relaxed => lit "0.5rem"
  end.

(** The behaviour script: a constant. *)
Definition js : jsstring :=
  lit "
<script>
  document.addEventListener('DOMContentLoaded', function() {
    const widgetContainer = document.getElementById('scw-widget');
    if (!widgetContainer) return;

    const fab = widgetContainer.querySelector('.scw-fab');
    const menu = widgetContainer.querySelector('.scw-widget-menu');
    const closeButton = widgetContainer.querySelector('.scw-close-button');

    if (!fab || !menu || !closeButton) return;

    const focusableElements = menu.querySelectorAll('a[href], button');
    const firstFocusableElement = focusableElements[0];
    const lastFocusableElement = focusableElements[focusableElements.length - 1];

    const openWidget = () => {
      widgetContainer.classList.add('open');
      fab.setAttribute('aria-expanded', 'true');
      menu.setAttribute('aria-hidden', 'false');
      if (firstFocusableElement) {
        firstFocusableElement.focus();
      }
      document.addEventListener('keydown', handleKeyDown);
    };

    const closeWidget = () => {
      widgetContainer.classList.remove('open');
      fab.setAttribute('aria-expanded', 'false');
      menu.setAttribute('aria-hidden', 'true');
      fab.focus();
      document.removeEventListener('keydown', handleKeyDown);
    };

    const handleKeyDown = (e) => {
      if (e.key === 'Escape') {
        closeWidget();
        return;
      }
      
      if (!focusableElements || focusableElements.length === 0) return;

      if (e.key === 'Tab') {
        if (e.shiftKey) { // Shift + Tab
          if (document.activeElement === firstFocusableElement) {
            e.preventDefault();
            lastFocusableElement.focus();
          }
        } else { // Tab
          if (document.activeElement === lastFocusableElement) {
            e.preventDefault();
            firstFocusableElement.focus();
          }
        }
      }
    };

    fab.addEventListener('click', () => {
      const isOpen = widgetContainer.classList.contains('open');
      if (isOpen) {
        closeWidget();
      } else {
        openWidget();
      }
    });

    closeButton.addEventListener('click', closeWidget);
  });
</script>".

(** The style sheet up to the place of the animation rules. *)
Definition css_rules (config : WidgetConfig) : jsstring :=
  let menuSpacingValue := spacingValues (menuSpacing config) in
  let fabBorderRadius :=
    match widgetShape config with rounded => lit "50%" | square => lit "16px" end in
  let platformIconBorderRadius :=
    match widgetShape config with rounded => lit "50%" | square => lit "8px" end in
  let positionStyles :=
    match position config with
    | bottom_right => lit "bottom: 2rem; right: 2rem;"
    | bottom_left => lit "bottom: 2rem; left: 2rem;"
    end in
  let menuTransformOrigin :=
    match position config with
    | bottom_right => lit "bottom right"
    | bottom_left => lit "bottom left"
    end in
  let menuSide :=
    match position config with
    | bottom_right => lit "right: 0;"
    | bottom_left => lit "left: 0;"
    end in
  lit "
<style>
  .scw-widget-container {
    position: fixed;
    z-index: 9999;
    font-family: -apple-system, BlinkMacSystemFont, `Segoe UI`, Roboto, `Helvetica Neue`, Arial, sans-serif;
    "
  ++ positionStyles
  ++ lit "
  }
  .scw-widget-menu {
    width: 300px;
    margin-bottom: 1rem;
    background-color: #fff;
    border-radius: 8px;
    box-shadow: 0 10px 20px rgba(0,0,0,0.1), 0 3px 6px rgba(0,0,0,0.1);
    overflow: hidden;
    transform: scale(0.95);
    opacity: 0;
    visibility: hidden;
    transition: transform 0.2s ease-out, opacity 0.2s ease-out, visibility 0s 0.2s;
    position: absolute;
    bottom: 100%;
    transform-origin: "
  ++ menuTransformOrigin
  ++ lit ";
    "
  ++ menuSide
  ++ lit "
  }
  .scw-widget-container.open .scw-widget-menu {
    transform: scale(1);
    opacity: 1;
    visibility: visible;
    transition: transform 0.2s ease-out, opacity 0.2s ease-out;
  }
  .scw-header {
    padding: 1rem;
    display: flex;
    justify-content: space-between;
    align-items: center;
  }
  .scw-header-text {
    font-weight: bold;
    font-size: 1.1rem;
  }
  .scw-close-button {
    background: none;
    border: none;
    cursor: pointer;
    padding: 0;
    opacity: 0.8;
    transition: opacity 0.2s;
  }
  .scw-close-button:hover { opacity: 1; }
  .scw-platform-list {
    padding: 0.5rem;
    display: flex;
    flex-direction: column;
    gap: "
  ++ menuSpacingValue
  ++ lit ";
  }
  .scw-platform-item {
    display: flex;
    align-items: center;
    gap: 1rem;
    padding: 0.75rem;
    border-radius: 8px;
    text-decoration: none;
    color: inherit;
    transition: background-color 0.2s;
  }
  .scw-platform-item:hover { background-color: #f3f4f6; }
  .scw-platform-icon {
    width: 40px;
    height: 40px;
    border-radius: "
  ++ platformIconBorderRadius
  ++ lit ";
    display: flex;
    align-items: center;
    justify-content: center;
    flex-shrink: 0;
    color: #fff; /* For custom SVGs using currentColor */
  }
  .scw-platform-icon svg {
    width: 24px;
    height: 24px;
  }
  .scw-platform-info { flex-grow: 1; }
  .scw-platform-name { font-weight: 600; font-size: 0.95rem; color: #111827; }
  .scw-platform-cta { font-size: 0.85rem; color: #6b7280; }
  .scw-arrow-icon { color: #9ca3af; margin-left: auto; }
  .scw-fab {
    width: 64px;
    height: 64px;
    background-color: "
  ++ mainButtonColor config
  ++ lit ";
    border-radius: "
  ++ fabBorderRadius
  ++ lit ";
    border: none;
    cursor: pointer;
    display: flex;
    align-items: center;
    justify-content: center;
    box-shadow: 0 4px 12px rgba(0,0,0,0.2);
    transition: transform 0.2s ease-in-out;
    position: relative;
    overflow: hidden;
  }
  .scw-fab:hover { transform: scale(1.05); }
  .scw-fab-icon-open, .scw-fab-icon-close {
    position: absolute;
    transition: transform 0.3s ease, opacity 0.3s ease;
  }
  .scw-fab-icon-open { transform: rotate(0) scale(1); opacity: 1; }
  .scw-widget-container.open .scw-fab-icon-open { transform: rotate(-90deg) scale(0); opacity: 0; }
  .scw-fab-icon-close { transform: rotate(90deg) scale(0); opacity: 0; }
  .scw-widget-container.open .scw-fab-icon-close { transform: rotate(0) scale(1); opacity: 1; }
  ".

(** The end of the style sheet, after the animation rules. *)
Definition css_end : jsstring :=
  lit "
</style>".

Definition css (config : WidgetConfig) : jsstring :=
  css_rules config ++ getAnimationCss (buttonAnimation config) ++ css_end.

(** The markup before and after the platform list. *)
Definition html_head (config : WidgetConfig) : jsstring :=
  lit "
<!-- Social Contact Widget Container -->
<div class=`scw-widget-container` id=`scw-widget`>
  <!-- Widget Menu -->
  <div class=`scw-widget-menu` role=`dialog` aria-modal=`true` aria-labelledby=`scw-header-text` aria-hidden=`true`>
    <div class=`scw-header` style=`background-color: "
  ++ headerBgColor config
  ++ lit "; color: "
  ++ headerTextColor config
  ++ lit ";`>
      <span class=`scw-header-text` id=`scw-header-text`>"
  ++ headerText config
  ++ lit "</span>
      <button class=`scw-close-button` aria-label=`Close menu`>
        <svg xmlns=`http://www.w3.org/2000/svg` width=`20` height=`20` viewBox=`0 0 24 24` fill=`none` stroke=`"
  ++ headerTextColor config
  ++ lit "` stroke-width=`2` stroke-linecap=`round` stroke-linejoin=`round`><line x1=`18` y1=`6` x2=`6` y2=`18`></line><line x1=`6` y1=`6` x2=`18` y2=`18`></line></svg>
      </button>
    </div>
    <div class=`scw-platform-list`>
      ".

Definition html_tail (config : WidgetConfig) : jsstring :=
  lit "
    </div>
  </div>
  <!-- Floating Action Button -->
  <button class=`scw-fab` aria-label=`Open contact menu` aria-haspopup=`dialog` aria-expanded=`false`>
    <div class=`scw-fab-icon-open`>
      <svg xmlns=`http://www.w3.org/2000/svg` width=`32` height=`32` viewBox=`0 0 24 24` fill=`none` stroke=`"
  ++ mainIconColor config
  ++ lit "` stroke-width=`2` stroke-linecap=`round` stroke-linejoin=`round`><path d=`M21 15a2 2 0 0 1-2 2H7l-4 4V5a2 2 0 0 1 2-2h14a2 2 0 0 1 2 2z`></path></svg>
    </div>
    <div class=`scw-fab-icon-close`>
      <svg xmlns=`http://www.w3.org/2000/svg` width=`32` height=`32` viewBox=`0 0 24 24` fill=`none` stroke=`"
  ++ mainIconColor config
  ++ lit "` stroke-width=`2` stroke-linecap=`round` stroke-linejoin=`round`><line x1=`18` y1=`6` x2=`6` y2=`18`></line><line x1=`6` y1=`6` x2=`18` y2=`18`></line></svg>
    </div>
  </button>
</div>".

(** The separator of [join]. *)
Definition item_separator : jsstring := 10%N :: lit "      ".

(** The whole bundle, from its three sections. *)
Definition bundle (html css js : jsstring) : jsstring :=
  lit "<!-- Start Social Contact Widget -->
"
  ++ html
  ++ lit "
"
  ++ css
  ++ lit "
"
  ++ js
  ++ lit "
<!-- End Social Contact Widget -->".

(** The markup of one link entry of the platform list. *)
Definition item_markup (p : PlatformEntry) (link bgColor iconHtml : jsstring) : jsstring :=
  lit "
      <a href=`"
  ++ link
  ++ lit "` target=`_blank` rel=`noopener noreferrer` class=`scw-platform-item`>
        <div class=`scw-platform-icon` style=`background-color: "
  ++ bgColor
  ++ lit ";`>
          "
  ++ iconHtml
  ++ lit "
        </div>
        <div class=`scw-platform-info`>
          <p class=`scw-platform-name`>"
  ++ name p
  ++ lit "</p>
          <p class=`scw-platform-cta`>"
  ++ cta (PLATFORM_DETAILS (id p))
  ++ lit "</p>
        </div>
        <svg class=`scw-arrow-icon` xmlns=`http://www.w3.org/2000/svg` width=`20` height=`20` viewBox=`0 0 24 24` fill=`none` stroke=`currentColor` stroke-width=`2` stroke-linecap=`round` stroke-linejoin=`round`><polyline points=`9 18 15 12 9 6`></polyline></svg>
      </a>".

Section Generator.

(** [getIconSvgString] (components/icons/getIconSvgString): the markup of
    the built-in icon of a platform in a colour.  Its file is not part of
    the sources at hand; it is taken as a function of its arguments. *)
Variable getIconSvgString : Platform -> jsstring -> jsstring.

(** [PLATFORMS.filter(p => config.platforms[p.id].enabled)] *)
Definition enabledPlatforms (config : WidgetConfig) : result (list PlatformEntry) :=
  filterM (fun p => pc <- platformOf config (id p) ;; Ok (enabled pc)) PLATFORMS.

(** The callback of [enabledPlatforms.map]: one link entry. *)
Definition platform_item (config : WidgetConfig) (p : PlatformEntry) : result jsstring :=
  platformConfig <- platformOf config (id p) ;;
  let iconHtml :=
    opt_or_else (customIconSvg platformConfig) (getIconSvgString (id p) (lit "#FFFFFF")) in
  let bgColor :=
    opt_or_else (color platformConfig) (defaultColor (PLATFORM_DETAILS (id p))) in
  pc <- platformOf config (id p) ;;
  link <- getPlatformLink (id p) pc ;;
  Ok (item_markup p link bgColor iconHtml).

Definition html (config : WidgetConfig) : result jsstring :=
  listed <- enabledPlatforms config ;;
  items <- mapM (platform_item config) listed ;;
  Ok (html_head config ++ join item_separator items ++ html_tail config).

Definition generateWidgetCode (config : WidgetConfig) : result jsstring :=
  markup <- html config ;;
  Ok (bundle markup (css config) js).

End Generator.

(* ================================================================== *)
(** ** Configuration edits (Configurator.tsx) *)

(** A field of [PlatformConfig] with the value given to it: the
    arguments [field] and [value] of [handlePlatformFieldChange]. *)
Inductive FieldValue :=
| enabled_is (v : bool)
| contactId_is (v : jsstring)
| predefinedMessage_is (v : option jsstring)
| emailLinkType_is (v : option EmailLinkType)
| customIconSvg_is (v : option jsstring)
| color_is (v : option jsstring).

Definition isEmailLinkType (fv : FieldValue) : bool :=
  match fv with emailLinkType_is _ => true | _ => false end.

(** [{ ...pc, [field]: value }] *)
Definition with_field (pc : PlatformConfig) (fv : FieldValue) : PlatformConfig :=
  match fv with
  | enabled_is v =>
      {| enabled := v; contactId := contactId pc;
         predefinedMessage := predefinedMessage pc; emailLinkType := emailLinkType pc;
         customIconSvg := customIconSvg pc; color := color pc |}
  | contactId_is v =>
      {| enabled := enabled pc; contactId := v;
         predefinedMessage := predefinedMessage pc; emailLinkType := emailLinkType pc;
         customIconSvg := customIconSvg pc; color := color pc |}
  | predefinedMessage_is v =>
      {| enabled := enabled pc; contactId := contactId pc;
         predefinedMessage := v; emailLinkType := emailLinkType pc;
         customIconSvg := customIconSvg pc; color := color pc |}
  | emailLinkType_is v =>
      {| enabled := enabled pc; contactId := contactId pc;
         predefinedMessage := predefinedMessage pc; emailLinkType := v;
         customIconSvg := customIconSvg pc; color := color pc |}
  | customIconSvg_is v =>
      {| enabled := enabled pc; contactId := contactId pc;
         predefinedMessage := predefinedMessage pc; emailLinkType := emailLinkType pc;
         customIconSvg := v; color := color pc |}
  | color_is v =>
      {| enabled := enabled pc; contactId := contactId pc;
         predefinedMessage := predefinedMessage pc; emailLinkType := emailLinkType pc;
         customIconSvg := customIconSvg pc; color := v |}
  end.

(** [{ ...config, platforms: o }] *)
Definition with_platforms (config : WidgetConfig) (o : PlatformMap) : WidgetConfig :=
  {| platforms := o;
     headerText := headerText config;
     headerBgColor := headerBgColor config;
     headerTextColor := headerTextColor config;
     mainButtonColor := mainButtonColor config;
     mainIconColor := mainIconColor config;
     position := position config;
     buttonAnimation := buttonAnimation config;
     widgetShape := widgetShape config;
     menuSpacing := menuSpacing config |}.

(** The state update that [handlePlatformFieldChange] passes to
    [setConfig], as a function of the previous configuration.  Where
    [prevConfig.platforms] has no entry for [platformId] the code does not
    throw: the spread of [undefined] is empty, and the update adds, under
    a new last key, an object that holds the edited field alone (with
    [contactId: ''] beside it for the e-mail link type).  That object has
    no [enabled] or no [contactId], so it is no [PlatformConfig] and the
    result is no [WidgetConfig]; [None] stands for that result, and
    [Some] is returned exactly where the entry exists. *)
Definition handlePlatformFieldChange (platformId : Platform) (fv : FieldValue)
    (prevConfig : WidgetConfig) : option WidgetConfig :=
  match get platformId (platforms prevConfig) with
  | None => None
  | Some prev =>
      let updatedPlatformConfig := with_field prev fv in
      let updatedPlatformConfig :=
        if Platform_eqb platformId email && isEmailLinkType fv
        then with_field updatedPlatformConfig (contactId_is [])
        else updatedPlatformConfig in
      Some (with_platforms prevConfig
              (set platformId updatedPlatformConfig (platforms prevConfig)))
  end.

(* ================================================================== *)
(** ** Notions used in the statements *)

(** The bound [hi] of a repetition, as a proposition on the count. *)
Definition within (hi : option nat) (n : nat) : Prop :=
  match hi with
  | Some h => n <= h
  | None => True
  end.

(** The units that are not white space. *)
Definition notWhiteSpace (c : N) : bool := negb (isWhiteSpace c).

(** A WhatsApp entry with a contact id and a pre-filled message. *)
Definition whatsapp_with (cid : jsstring) (message : option jsstring) : PlatformConfig :=
  {| enabled := true; contactId := cid; predefinedMessage := message;
     emailLinkType := None; customIconSvg := None; color := None |}.

(** A contact page path under each of the three values of
    [emailLinkType]: accepted and emitted as it is unless the type is
    ['mailto']. *)
Definition contact_page (t : option EmailLinkType) : PlatformConfig :=
  {| enabled := true; contactId := lit "/contact"; predefinedMessage := None;
     emailLinkType := t; customIconSvg := None; color := None |}.


(** Two configurations hold the same value: the same entry under every
    platform (whatever the order of the keys) and the same top-level
    fields. *)
Definition same_config (c1 c2 : WidgetConfig) : Prop :=
  (forall p, get p (platforms c1) = get p (platforms c2))
  /\ headerText c1 = headerText c2
  /\ headerBgColor c1 = headerBgColor c2
  /\ headerTextColor c1 = headerTextColor c2
  /\ mainButtonColor c1 = mainButtonColor c2
  /\ mainIconColor c1 = mainIconColor c2
  /\ position c1 = position c2
  /\ buttonAnimation c1 = buttonAnimation c2
  /\ widgetShape c1 = widgetShape c2
  /\ menuSpacing c1 = menuSpacing c2.

(** The [enabled] flag of a platform in a configuration. *)
Definition is_enabled (config : WidgetConfig) (p : Platform) : bool :=
  match get p (platforms config) with
  | Some pc => enabled pc
  | None => false
  end.

(** The pre-filled message of an enabled WhatsApp entry has no unpaired
    surrogate. *)
Definition encodable (config : WidgetConfig) : Prop :=
  forall pc message,
    get whatsapp (platforms config) = Some pc ->
    enabled pc = true ->
    predefinedMessage pc = Some message ->
    isWellFormed message = true.

(** The enabled platforms, in the order of [PLATFORMS]. *)
Definition shown (config : WidgetConfig) : list PlatformEntry :=
  filter (fun p => is_enabled config (id p)) PLATFORMS.

(** The entry of an enabled platform: its link, colour and icon. *)
Definition entry_of (getIconSvgString : Platform -> jsstring -> jsstring)
    (config : WidgetConfig) (p : PlatformEntry) (item : jsstring) : Prop :=
  exists pc link,
    get (id p) (platforms config) = Some pc
    /\ enabled pc = true
    /\ getPlatformLink (id p) pc = Ok link
    /\ item = item_markup p link
                (opt_or_else (color pc) (defaultColor (PLATFORM_DETAILS (id p))))
                (opt_or_else (customIconSvg pc) (getIconSvgString (id p) (lit "#FFFFFF"))).

(** Number of places of [s] at which [needle] starts. *)
Fixpoint occurrences (needle s : jsstring) : nat :=
  match s with
  | [] => 0
  | _ :: s' => (if startsWith needle s then 1 else 0) + occurrences needle s'
  end.


Definition DEFAULT_reversed : WidgetConfig :=
  with_platforms DEFAULT_CONFIG (rev (platforms DEFAULT_CONFIG)).


Definition all_disabled : WidgetConfig :=
  with_platforms DEFAULT_CONFIG
    (map (fun kv => (fst kv, plain false (contactId (snd kv)))) (platforms DEFAULT_CONFIG)).

(** A stand-in for the built-in icons, for the examples. *)
Definition plain_icon (p : Platform) (colour : jsstring) : jsstring :=
  lit "<svg fill=`" ++ colour ++ lit "`/>".

(* ================================================================== *)
(** ** The validation pass of the form (Configurator.tsx) *)

(** The [errors] state: a message under the id of each platform that has
    one, in insertion order. *)
Definition ErrorMap := list (Platform * jsstring).

(** [errors[p]] *)
Fixpoint getError (k : Platform) (o : ErrorMap) : option jsstring :=
  match o with
  | [] => None
  | (k', v) :: o' => if Platform_eqb k k' then Some v else getError k o'
  end.

(** [newErrors[p] = error] *)
Fixpoint putError (k : Platform) (v : jsstring) (o : ErrorMap) : ErrorMap :=
  match o with
  | [] => [(k, v)]
  | (k', v') :: o' =>
      if Platform_eqb k k' then (k', v) :: o' else (k', v') :: putError k v o'
  end.

Section ValidationPass.

Variable URL_hostname : jsstring -> result jsstring.

(** The body of the effect that runs on every change of the
    configuration: [PLATFORMS.forEach(p => ...)] over the platforms that
    are left, [newErrors] being the object built so far. *)
Fixpoint collectErrors (config : WidgetConfig) (ps : list PlatformEntry)
    (newErrors : ErrorMap) : result ErrorMap :=
  match ps with
  | [] => Ok newErrors
  | p :: rest =>
      platformConfig <- platformOf config (id p) ;;
      let newErrors :=
        if enabled platformConfig then
          match getValidationError URL_hostname (id p) platformConfig with
          | Some error =>
              if truthy error then putError (id p) error newErrors else newErrors
          | None => newErrors
          end
        else newErrors in
      collectErrors config rest newErrors
  end.

Definition validationErrors (config : WidgetConfig) : result ErrorMap :=
  collectErrors config PLATFORMS [].

End ValidationPass.

(* ================================================================== *)
(** ** The other edits of the form (Configurator.tsx) *)

(** [handlePlatformToggle]: the state update, as a function of the
    previous configuration.  Reading [enabled] of a missing entry throws. *)
Definition handlePlatformToggle (platformId : Platform) (prevConfig : WidgetConfig)
  : result WidgetConfig :=
  prev <- platformOf prevConfig platformId ;;
  Ok (with_platforms prevConfig
        (set platformId (with_field prev (enabled_is (negb (enabled prev))))
           (platforms prevConfig))).

(** A top-level field of [WidgetConfig] with the value given to it: the
    [name] and [value] of [handleInputChange], [handleColorChange] and
    [handleRadioChange], whose names are those of the inputs of the form. *)
Inductive TopFieldValue :=
| headerText_is (v : jsstring)
| headerBgColor_is (v : jsstring)
| headerTextColor_is (v : jsstring)
| mainButtonColor_is (v : jsstring)
| mainIconColor_is (v : jsstring)
| position_is (v : Position)
| buttonAnimation_is (v : ButtonAnimation)
| widgetShape_is (v : WidgetShape)
| menuSpacing_is (v : MenuSpacing).

(** [{ ...prev, [name]: value }], the update of the three handlers. *)
Definition handleRadioChange (fv : TopFieldValue) (prev : WidgetConfig) : WidgetConfig :=
  {| platforms := platforms prev;
     headerText := match fv with headerText_is v => v | _ => headerText prev end;
     headerBgColor := match fv with headerBgColor_is v => v | _ => headerBgColor prev end;
     headerTextColor :=
       match fv with headerTextColor_is v => v | _ => headerTextColor prev end;
     mainButtonColor :=
       match fv with mainButtonColor_is v => v | _ => mainButtonColor prev end;
     mainIconColor := match fv with mainIconColor_is v => v | _ => mainIconColor prev end;
     position := match fv with position_is v => v | _ => position prev end;
     buttonAnimation :=
       match fv with buttonAnimation_is v => v | _ => buttonAnimation prev end;
     widgetShape := match fv with widgetShape_is v => v | _ => widgetShape prev end;
     menuSpacing := match fv with menuSpacing_is v => v | _ => menuSpacing prev end |}.

(** One interaction with the form. *)
Inductive Edit :=
| toggle (p : Platform)
| platform_field (p : Platform) (fv : FieldValue)
| top_field (fv : TopFieldValue).

(** The configuration after an edit; [None] when the update throws or
    builds no [WidgetConfig]. *)
Definition apply_edit (e : Edit) (config : WidgetConfig) : option WidgetConfig :=
  match e with
  | toggle p =>
      match handlePlatformToggle p config with
      | Ok next => Some next
      | Throw _ => None
      end
  | platform_field p fv => handlePlatformFieldChange p fv config
  | top_field fv => Some (handleRadioChange fv config)
  end.

(** A session: the edits in the order they are made, from a configuration. *)
Fixpoint session (es : list Edit) (config : WidgetConfig) : option WidgetConfig :=
  match es with
  | [] => Some config
  | e :: rest =>
      match apply_edit e config with
      | Some next => session rest next
      | None => None
      end
  end.

(* ================================================================== *)
(** ** The colour of the text on a colour swatch (Configurator.tsx) *)

Module Colour.

(** A number that is an integer or NaN ([None]). *)
Definition number := option Z.

(** The value of a hexadecimal digit. *)
Definition hexValue (c : N) : option Z :=
  if between 48 57 c then Some (Z.of_N c - 48)%Z
  else if between 97 102 c then Some (Z.of_N c - 87)%Z
  else if between 65 70 c then Some (Z.of_N c - 55)%Z
  else None.

Definition isHexDigit (c : N) : bool :=
  match hexValue c with Some _ => true | None => false end.

Fixpoint takeWhile (p : N -> bool) (s : jsstring) : jsstring :=
  match s with
  | [] => []
  | c :: s' => if p c then c :: takeWhile p s' else []
  end.

Definition digitsValue (ds : jsstring) : Z :=
  fold_left (fun acc d => match hexValue d with
                          | Some v => (acc * 16 + v)%Z
                          | None => acc
                          end) ds 0%Z.

(** [parseInt(s, 16)]: leading white space is skipped, then a sign, then
    [0x] or [0X]; the value is that of the longest run of hexadecimal
    digits that follows, NaN when the run is empty. *)
Definition parseInt16 (s : jsstring) : number :=
  let s1 := trimStart s in
  let sign :=
    match s1 with
    | c :: _ => if (c =? code "-")%N then (-1)%Z else 1%Z
    | [] => 1%Z
    end in
  let s2 :=
    match s1 with
    | c :: r => if (c =? code "+")%N || (c =? code "-")%N then r else s1
    | [] => s1
    end in
  let s3 :=
    match s2 with
    | c1 :: c2 :: r =>
        if (c1 =? code "0")%N && ((c2 =? code "x")%N || (c2 =? code "X")%N)
        then r else s2
    | _ => s2
    end in
  match takeWhile isHexDigit s3 with
  | [] => None
  | ds => Some (sign * digitsValue ds)%Z
  end.

(** [s.slice(from, to)] for [0 <= from <= to] *)
Definition slice (from to : nat) (s : jsstring) : jsstring :=
  firstn (to - from) (skipn from s).

(** [((r * 299) + (g * 587) + (b * 114)) / 1000 >= 128].  The three
    numbers are integers of at most three hexadecimal digits or NaN; the
    sum is an integer far below 2^53, and its quotient by 1000, rounded to
    a double, is at least 128 exactly when the sum is at least 128000.
    With a NaN the comparison is false. *)
Definition yiq_at_least_128 (r g b : number) : bool :=
  match r, g, b with
  | Some r, Some g, Some b => (128000 <=? r * 299 + g * 587 + b * 114)%Z
  | _, _, _ => false
  end.

(** Nothing in the [try] block throws; its [catch] is never entered. *)
Definition getContrastingTextColor (hexColor : jsstring) : jsstring :=
  if negb (truthy hexColor) || (List.length hexColor <? 7) then lit "#000000"
  else
    let r := parseInt16 (slice 1 3 hexColor) in
    let g := parseInt16 (slice 3 5 hexColor) in
    let b := parseInt16 (slice 5 7 hexColor) in
    if yiq_at_least_128 r g b then lit "#111827" else lit "#FFFFFF".

End Colour.

(* ================================================================== *)
(** ** The code as it is shown (CodeOutput.tsx) *)

(** [s.replace(/c/g, by)] for a pattern that is one literal character. *)
Definition replaceEvery (c : N) (by_ : jsstring) (s : jsstring) : jsstring :=
  flat_map (fun u => if (u =? c)%N then by_ else [u]) s.

(** [code.replace(/</g, '&lt;').replace(/>/g, '&gt;')] *)
Definition shownCode (code_ : jsstring) : jsstring :=
  replaceEvery (code ">") (lit "&gt;") (replaceEvery (code "<") (lit "&lt;") code_).

(* ================================================================== *)
(** ** Notions used in the further statements *)

(** [a === b] on strings. *)
Fixpoint jsstring_eqb (a b : jsstring) : bool :=
  match a, b with
  | [], [] => true
  | x :: a', y :: b' => (x =? y)%N && jsstring_eqb a' b'
  | _, _ => false
  end.

(** ASCII lower case of a unit. *)
Definition toLowerASCII (c : N) : N := if between 65 90 c then (c + 32)%N else c.

(** A unit is a code unit: below 2^16. *)
Definition isCodeUnit (c : N) : bool := (c <? 0x10000)%N.

(** The units that [encodeURIComponent] can emit. *)
Definition isUriSafe (c : N) : bool :=
  isUnescaped c || (c =? code "%")%N.

(** A string starts with [http://] or [https://], in any mix of cases. *)
Definition hasHttpScheme (t : jsstring) : Prop :=
  exists scheme rest,
    t = scheme ++ lit "://" ++ rest
    /\ (map toLowerASCII scheme = lit "http" \/ map toLowerASCII scheme = lit "https").

(** The order of [PLATFORMS]. *)
Definition canonical : list Platform := [whatsapp; messenger; telegram; phone; email].

(** The message the form shows under a platform: the validator's, when the
    platform is enabled. *)
Definition expected_error (URL_hostname : jsstring -> result jsstring)
    (config : WidgetConfig) (p : Platform) : option jsstring :=
  match get p (platforms config) with
  | Some pc => if enabled pc then getValidationError URL_hostname p pc else None
  | None => None
  end.

(** The default configuration with the e-mail platform enabled. *)
Definition DEFAULT_with_email : WidgetConfig :=
  with_platforms DEFAULT_CONFIG
    (set email
       {| enabled := true; contactId := lit "hello@example.com";
          predefinedMessage := None; emailLinkType := Some mailto;
          customIconSvg := None; color := None |}
       (platforms DEFAULT_CONFIG)).

(** The link prefix of the three chat platforms. *)
Definition chat_prefix (p : Platform) : jsstring :=
  match p with
  | whatsapp => lit "https://wa.me/"
  | messenger => lit "https://m.me/"
  | telegram => lit "https://t.me/"
  | _ => []
  end.

Definition isChat (p : Platform) : bool :=
  match p with whatsapp | messenger | telegram => true | _ => false end.

(** An entry with another pre-filled message, colour or icon. *)
Definition with_message (pc : PlatformConfig) (v : option jsstring) : PlatformConfig :=
  with_field pc (predefinedMessage_is v).

(** The units that end an attribute value or start markup in HTML: the
    double quote, [<], [>] and [&]. *)
Definition isMarkup (c : N) : bool :=
  ((c =? 34) || (c =? code "<") || (c =? code ">") || (c =? code "&"))%N.

Definition markupFree (s : jsstring) : bool := forallb (fun c => negb (isMarkup c)) s.

(** The fields of the configuration that the style sheet reads; the others
    are read by the markup. *)
Definition isStyleField (fv : TopFieldValue) : bool :=
  match fv with
  | mainButtonColor_is _ | position_is _ | buttonAnimation_is _
  | widgetShape_is _ | menuSpacing_is _ => true
  | _ => false
  end.

(** The value of two hexadecimal digits. *)
Definition hexPair (c1 c2 : N) : option Z :=
  match Colour.hexValue c1, Colour.hexValue c2 with
  | Some v1, Some v2 => Some (16 * v1 + v2)%Z
  | _, _ => None
  end.

(** The number of [<] and [>] of a string. *)
Definition angleBrackets (s : jsstring) : nat :=
  List.length (filter (fun c => (c =? code "<")%N || (c =? code ">")%N) s).

(** The name of the animation an animated button uses: [scw-] and the
    value of [buttonAnimation]. *)
Definition keyframesName (a : ButtonAnimation) : jsstring :=
  lit "scw-" ++ match a with
                | none => lit "none"
                | pulse => lit "pulse"
                | bounce => lit "bounce"
                | fade => lit "fade"
                | shake => lit "shake"
                end.

(** *** The platform list in the text of the snippet *)

(** The attribute that every platform link entry carries. *)
Definition entry_marker : jsstring := lit "class=`scw-platform-item`".







(** The default configuration with one platform, Messenger, enabled, and
    an icon of its own. *)
Definition messenger_only (icon : jsstring) : WidgetConfig :=
  with_platforms DEFAULT_CONFIG
    (set messenger
       {| enabled := true; contactId := lit "Meta"; predefinedMessage := None;
          emailLinkType := None; customIconSvg := Some icon; color := None |}
       (platforms all_disabled)).

(** *** The text of an animation *)

(** The braces of a text are balanced. *)
Fixpoint closes (depth : nat) (s : jsstring) : bool :=
  match s with
  | [] => (depth =? 0)%nat
  | c :: s' =>
      if (c =? code "{")%N then closes (S depth) s'
      else if (c =? code "}")%N then
             match depth with
             | O => false
             | S d => closes d s'
             end
           else closes depth s'
  end.

Definition balanced (s : jsstring) : bool := closes 0 s.

(** A text that can stand as the value of one declaration: no semicolon,
    no brace. *)
Definition isValue (s : jsstring) : bool :=
  forallb (fun c => negb ((c =? code ";") || (c =? code "{") || (c =? code "}"))%N) s.

(** The block of an animation: one rule that gives the floating button the
    animation [name] with the timing [timing], and the [@keyframes]
    definition of [name] with the frames [frames]. *)
Definition animation_block (name timing frames : jsstring) : jsstring :=
  lit "
  .scw-fab {
    animation: " ++ name ++ lit " " ++ timing ++ lit ";
  }
  @keyframes " ++ name ++ lit " {" ++ frames ++ lit "
  }".

(** [block] is the block of the animation [name]. *)
Definition is_animation_block (name block : jsstring) : Prop :=
  exists timing frames,
    block = animation_block name timing frames
    /\ isValue timing = true
    /\ timing <> []
    /\ balanced frames = true
    /\ occurrences (lit "@keyframes") frames = 0
    /\ 1 <= occurrences (lit "%") frames.

(** The default configuration with a WhatsApp number that is not digits
    only. *)
Definition DEFAULT_with_bad_number : WidgetConfig :=
  with_platforms DEFAULT_CONFIG
    (set whatsapp (plain true (lit "+1 555")) (platforms DEFAULT_CONFIG)).

(* ================================================================== *)
(** * Properties *)

(** ** Strings *)

Section StringFacts.

Lemma dropWhile_nil_iff (p : N -> bool) (s : jsstring) :
  dropWhile p s = [] <-> forallb p s = true.
Proof.
  induction s as [|c s IH]; simpl.
  - tauto.
  - destruct (p c); simpl.
    + exact IH.
    + split; discriminate.
Qed.

Lemma forallb_rev (p : N -> bool) (s : jsstring) :
  forallb p (rev s) = forallb p s.
Proof.
  induction s as [|c s IH]; simpl; trivial.
  rewrite forallb_app, IH. simpl.
  rewrite andb_true_r. apply andb_comm.
Qed.

(** What is left of a string after [dropWhile] is a suffix of it. *)
Lemma dropWhile_suffix (p : N -> bool) (s : jsstring) :
  exists pre, s = pre ++ dropWhile p s /\ forallb p pre = true.
Proof.
  induction s as [|c s [pre [E A]]]; simpl.
  - exists []. split; reflexivity.
  - destruct (p c) eqn:Pc.
    + exists (c :: pre). simpl. rewrite Pc, A. split; [f_equal; exact E | reflexivity].
    + exists []. split; reflexivity.
Qed.

(** [dropWhile] stops at a unit outside the class. *)
Lemma dropWhile_stops (p : N -> bool) (s : jsstring) :
  forallb p (dropWhile p s) = true -> dropWhile p s = [].
Proof.
  induction s as [|c s IH]; simpl; trivial.
  destruct (p c) eqn:Pc; trivial.
  simpl. rewrite Pc. discriminate.
Qed.

Lemma trim_nil_iff (s : jsstring) :
  trim s = [] <-> forallb isWhiteSpace s = true.
Proof.
  unfold trim, trimEnd, trimStart. split.
  - intros H.
    apply (f_equal (@rev N)) in H. rewrite rev_involutive in H. simpl in H.
    apply dropWhile_nil_iff in H. rewrite forallb_rev in H.
    apply dropWhile_stops in H.
    destruct (dropWhile_suffix isWhiteSpace s) as [pre [E A]].
    rewrite H, app_nil_r in E. subst pre. exact A.
  - intros H. apply dropWhile_nil_iff in H. rewrite H. reflexivity.
Qed.

(** [trim] removes white space from both ends and nothing else. *)
Lemma trim_decompose (s : jsstring) :
  exists pre suf,
    s = pre ++ trim s ++ suf
    /\ forallb isWhiteSpace pre = true /\ forallb isWhiteSpace suf = true.
Proof.
  unfold trim, trimEnd, trimStart.
  destruct (dropWhile_suffix isWhiteSpace s) as [pre [E A]].
  destruct (dropWhile_suffix isWhiteSpace (rev (dropWhile isWhiteSpace s)))
    as [suf [E' A']].
  exists pre, (rev suf). split; [|split; [exact A | rewrite forallb_rev; exact A']].
  rewrite <- rev_app_distr, <- E', rev_involutive. exact E.
Qed.

Lemma truthy_false_iff (s : jsstring) : truthy s = false <-> s = [].
Proof. destruct s; simpl; split; congruence. Qed.

Lemma or_else_nil (s : jsstring) : or_else s [] = s.
Proof. destruct s; reflexivity. Qed.

End StringFacts.

(** ** The matcher on the patterns of the validators *)

Section MatcherFacts.

Lemma within_succ hi n : hi <> Some 0 -> within (decr hi) n -> within hi (S n).
Proof. destruct hi as [[|h]|]; simpl; intros; try lia; congruence. Qed.

Lemma within_pred hi n : hi <> Some 0 -> within hi n -> within (decr hi) (pred n).
Proof. destruct hi as [[|h]|]; simpl; intros; try lia; congruence. Qed.

Lemma option_eq_dec_nat (a b : option nat) : {a = b} + {a <> b}.
Proof. decide equality. apply Nat.eq_dec. Qed.

(** One iteration of a repetition of a character class. *)
Lemma rep_class_step (p : N -> bool) (k : state -> bool) fuel lo hi i s :
  hi <> Some 0 ->
  rep (m (Chr p)) k (S fuel) lo hi (i, s) =
  match s with
  | c :: s' => p c && rep (m (Chr p)) k fuel (pred lo) (decr hi) (S i, s')
  | [] => false
  end || ((lo =? 0) && k (i, s)).
Proof.
  intros Hne.
  assert (E : (S i =? i) = false) by (apply Nat.eqb_neq; lia).
  destruct hi as [[|h]|]; [congruence | |];
    destruct s as [|c s]; cbn [rep m snd fst decr option_map];
    rewrite ?E, ?andb_false_r; reflexivity.
Qed.

(** A repetition of one character class takes some [n] units of the
    class, with [lo <= n <= hi], and goes on with the rest. *)
Lemma rep_class (p : N -> bool) (k : state -> bool) :
  forall fuel lo hi i s,
    List.length s < fuel ->
    within hi lo ->
    (rep (m (Chr p)) k fuel lo hi (i, s) = true <->
     exists n, lo <= n /\ within hi n /\ n <= List.length s /\
               forallb p (firstn n s) = true /\ k (i + n, skipn n s) = true).
Proof.
  induction fuel as [|fuel IH]; intros lo hi i s Hf Hw; [lia|].
  destruct (option_eq_dec_nat hi (Some 0)) as [-> | Hne].
  - (* no iteration is left *)
    simpl in Hw. simpl rep. split.
    + intros Hk. exists 0. simpl. rewrite Nat.add_0_r. repeat split; auto; lia.
    + intros [n [_ [Hn [_ [_ Hk]]]]]. simpl in Hn.
      assert (n = 0) by lia. subst n. simpl in Hk. rewrite Nat.add_0_r in Hk. exact Hk.
  - rewrite rep_class_step by exact Hne.
    rewrite orb_true_iff, andb_true_iff, Nat.eqb_eq.
    split.
    + intros [H | [H0 Hk]].
      * destruct s as [|c s]; [discriminate|].
        apply andb_true_iff in H. destruct H as [Pc H].
        apply IH in H; [| simpl in Hf; lia | apply within_pred; assumption].
        destruct H as [n [Hlo [Hhi [Hlen [Hall Hk]]]]].
        exists (S n). simpl. rewrite Pc, Hall.
        replace (i + S n) with (S i + n) by lia.
        repeat split; auto; try lia.
        apply within_succ; assumption.
      * subst lo. exists 0. simpl. rewrite Nat.add_0_r.
        repeat split; auto; lia.
    + intros [[|n] [Hlo [Hhi [Hlen [Hall Hk]]]]].
      * right. simpl in Hk. rewrite Nat.add_0_r in Hk. split; [lia | exact Hk].
      * left. destruct s as [|c s]; [simpl in Hlen; lia|].
        simpl in Hall, Hlen, Hk. apply andb_true_iff in Hall. destruct Hall as [Pc Hall].
        rewrite Pc. simpl.
        apply IH; [simpl in Hf; lia | apply within_pred; assumption |].
        exists n. replace (S i + n) with (i + S n) by lia.
        repeat split; auto; try lia.
        destruct hi as [[|h]|]; simpl in *; lia.
Qed.

(** A pattern that starts with [^] matches at index 0 only. *)
Lemma search_Bos_later (r : regex) (s : jsstring) (i : nat) :
  search (Bos @@ r) (S i) s = false.
Proof.
  revert i. induction s as [|c s IH]; intros i; simpl.
  - reflexivity.
  - apply IH.
Qed.

Lemma test_Bos (r : regex) (s : jsstring) :
  test (Bos @@ r) s = m r (0, s) (fun _ => true).
Proof.
  unfold test. destruct s as [|c s]; simpl.
  - apply orb_false_r.
  - rewrite search_Bos_later. apply orb_false_r.
Qed.

(** [/^[class]{lo,hi}$/]: the whole string is of the class and its length
    is between the bounds. *)
Lemma test_whole_class (p : N -> bool) (lo : nat) (hi : option nat) (s : jsstring) :
  within hi lo ->
  (test (Bos @@ Rep (Chr p) lo hi @@ Eos) s = true <->
   lo <= List.length s /\ within hi (List.length s) /\ forallb p s = true).
Proof.
  intros Hw. rewrite test_Bos.
  change (m (Rep (Chr p) lo hi @@ Eos) (0, s) (fun _ => true))
    with (rep (m (Chr p)) (fun y => m Eos y (fun _ => true))
              (S (lo + List.length s)) lo hi (0, s)).
  rewrite rep_class by (lia || assumption).
  cbn [m snd fst]. split.
  - intros [n [Hlo [Hhi [Hlen [Hall Hk]]]]].
    destruct (skipn n s) eqn:Hs; [|discriminate].
    assert (n = List.length s).
    { apply (f_equal (@List.length N)) in Hs. rewrite length_skipn in Hs. simpl in Hs. lia. }
    subst n. rewrite firstn_all in Hall. auto.
  - intros [Hlo [Hhi Hall]]. exists (List.length s).
    rewrite firstn_all, skipn_all. auto.
Qed.

End MatcherFacts.

(** ** The validators of WhatsApp numbers and Telegram names *)

Section ValidatorFacts.

Lemma between_iff lo hi c : between lo hi c = true <-> (lo <= c <= hi)%N.
Proof.
  unfold between. rewrite andb_true_iff, !N.leb_le. tauto.
Qed.

Lemma isDigit_iff c : isDigit c = true <-> (code "0" <= c <= code "9")%N.
Proof. apply between_iff. Qed.

Lemma isWordChar_iff c :
  isWordChar c = true <->
  (code "a" <= c <= code "z")%N \/ (code "A" <= c <= code "Z")%N \/
  (code "0" <= c <= code "9")%N \/ c = code "_".
Proof.
  unfold isWordChar. rewrite !orb_true_iff, !between_iff, N.eqb_eq.
  change (code "a") with 97%N. change (code "z") with 122%N.
  change (code "A") with 65%N. change (code "Z") with 90%N.
  change (code "0") with 48%N. change (code "9") with 57%N.
  change (code "_") with 95%N. tauto.
Qed.

Lemma forallb_In_iff (p : N -> bool) (P : N -> Prop) (s : jsstring) :
  (forall c, p c = true <-> P c) ->
  (forallb p s = true <-> forall c, In c s -> P c).
Proof.
  intros HP. rewrite forallb_forall. split; intros H c Hc; apply HP, H, Hc.
Qed.

Lemma validators_whatsapp_None (value : jsstring) :
  validators_whatsapp value = None <->
  trim value <> [] /\
  (forall c, In c (trim value) -> (code "0" <= c <= code "9")%N) /\
  7 <= List.length (trim value) <= 15.
Proof.
  unfold validators_whatsapp. cbv zeta.
  destruct (truthy (trim value)) eqn:Ht; simpl.
  2:{ apply truthy_false_iff in Ht. split; [discriminate | intros [H _]; contradiction]. }
  assert (Hne : trim value <> []) by (intros E; rewrite E in Ht; discriminate).
  pose proof (test_whole_class isDigit 1 None (trim value) I) as Hre.
  rewrite (forallb_In_iff _ _ _ isDigit_iff) in Hre.
  change (Bos @@ Rep (Chr isDigit) 1 None @@ Eos) with Patterns.digits_only in Hre.
  destruct (test Patterns.digits_only (trim value)); simpl.
  - destruct Hre as [Hre _]. destruct (Hre eq_refl) as [_ [_ Hd]].
    destruct (List.length (trim value) <? 7) eqn:H7; simpl.
    + apply Nat.ltb_lt in H7. split; [discriminate | intros [_ [_ H]]; lia].
    + apply Nat.ltb_ge in H7.
      destruct (15 <? List.length (trim value)) eqn:H15.
      * apply Nat.ltb_lt in H15. split; [discriminate | intros [_ [_ H]]; lia].
      * apply Nat.ltb_ge in H15.
        split; [intros _; split; [exact Hne | split; [exact Hd | lia]] | reflexivity].
  - split; [discriminate|]. intros [_ [Hd Hlen]].
    destruct Hre as [_ Hre]. discriminate Hre.
    split; [lia | split; [exact I | exact Hd]].
Qed.

Lemma validators_telegram_None (value : jsstring) :
  validators_telegram value = None <->
  (forall c, In c (trim value) ->
     (code "a" <= c <= code "z")%N \/ (code "A" <= c <= code "Z")%N \/
     (code "0" <= c <= code "9")%N \/ c = code "_") /\
  5 <= List.length (trim value) <= 32.
Proof.
  unfold validators_telegram. cbv zeta.
  destruct (truthy (trim value)) eqn:Ht; simpl.
  2:{ apply truthy_false_iff in Ht. rewrite Ht. simpl.
      split; [discriminate | intros [_ H]; lia]. }
  pose proof (test_whole_class isWordChar 5 (Some 32) (trim value)) as Hre.
  simpl within in Hre. specialize (Hre ltac:(lia)).
  rewrite (forallb_In_iff _ _ _ isWordChar_iff) in Hre.
  change (Bos @@ Rep (Chr isWordChar) 5 (Some 32) @@ Eos) with Patterns.telegram_name in Hre.
  destruct (test Patterns.telegram_name (trim value)); simpl.
  - destruct Hre as [Hre _]. destruct (Hre eq_refl) as [H5 [H32 Hd]].
    split; [intros _; split; [exact Hd | lia] | reflexivity].
  - split; [discriminate|]. intros [Hd Hlen].
    destruct Hre as [_ Hre]. discriminate Hre.
    split; [lia | split; [lia | exact Hd]].
Qed.

End ValidatorFacts.

(** C4.  The WhatsApp validator reports no error exactly when the trimmed
    contact id is not empty, is made of the digits 0 to 9 only, and has
    between 7 and 15 units; [getValidationError] applies it to the contact
    id as it is.  It rejects "+1 555" (not digits only) and accepts
    "15551234567". *)
Theorem whatsapp_validator_rule :
  (forall value : jsstring,
      validators_whatsapp value = None <->
      trim value <> [] /\
      (forall c, In c (trim value) -> (code "0" <= c <= code "9")%N) /\
      7 <= List.length (trim value) <= 15)
  /\ (forall URL_hostname pConfig,
         getValidationError URL_hostname whatsapp pConfig
         = validators_whatsapp (contactId pConfig))
  /\ validators_whatsapp (lit "+1 555")
     = Some (lit "Please enter digits only, without `+` or spaces.")
  /\ validators_whatsapp (lit "15551234567") = None.
Proof.
  split; [exact validators_whatsapp_None|].
  split; [|split; reflexivity].
  intros U pc. unfold getValidationError. cbv zeta. rewrite or_else_nil. reflexivity.
Qed.

(** C5.  The Telegram validator reports no error exactly when the trimmed
    contact id is made of letters a-z and A-Z, digits and underscores only
    and has between 5 and 32 units; [getValidationError] applies it to the
    contact id as it is.  It rejects "ab" and accepts "my_channel1". *)
Theorem telegram_validator_rule :
  (forall value : jsstring,
      validators_telegram value = None <->
      (forall c, In c (trim value) ->
         (code "a" <= c <= code "z")%N \/ (code "A" <= c <= code "Z")%N \/
         (code "0" <= c <= code "9")%N \/ c = code "_") /\
      5 <= List.length (trim value) <= 32)
  /\ (forall URL_hostname pConfig,
         getValidationError URL_hostname telegram pConfig
         = validators_telegram (contactId pConfig))
  /\ validators_telegram (lit "ab")
     = Some (lit "Must be 5-32 letters, numbers, or underscores.")
  /\ validators_telegram (lit "my_channel1") = None.
Proof.
  split; [exact validators_telegram_None|].
  split; [|split; reflexivity].
  intros U pc. unfold getValidationError. cbv zeta. rewrite or_else_nil. reflexivity.
Qed.

(** ** Empty contact ids *)

(** C6.  Whatever the platform, a contact id that trims to the empty
    string (the empty string, or white space only) gets an error message,
    and a non-empty one.  The validator is a function into [option]: the
    only operations of it that can throw stand inside its [try], so the
    statement holds for every behaviour [URL_hostname] of the URL parser,
    one that always throws included. *)
Theorem empty_contact_is_rejected :
  forall (URL_hostname : jsstring -> result jsstring)
         (platformId : Platform) (pConfig : PlatformConfig),
    trim (contactId pConfig) = [] ->
    exists msg,
      getValidationError URL_hostname platformId pConfig = Some msg /\ truthy msg = true.
Proof.
  intros U p pc Ht.
  unfold getValidationError. cbv zeta. rewrite or_else_nil.
  destruct p;
    [ unfold validators_messenger | unfold validators_whatsapp
    | unfold validators_telegram | unfold validators_phone
    | destruct (emailLinkType pc) as [[|]|];
      [ unfold validators_email | unfold validators_url | unfold validators_url ] ];
    cbv zeta; rewrite Ht; cbn [truthy negb];
    eexists; (split; [reflexivity | reflexivity]).
Qed.

Lemma empty_contact_is_rejected_witness :
  (exists msg,
      getValidationError (fun _ => Throw TypeError) email (plain true (lit "   "))
      = Some msg /\ truthy msg = true)
  /\ trim (lit "   ") = [].
Proof.
  split.
  - apply (empty_contact_is_rejected (fun _ => Throw TypeError) email
             (plain true (lit "   "))).
    reflexivity.
  - reflexivity.
Defined.

(** ** The e-mail platform *)

(** C10.  For the e-mail platform the validator applies the rule for
    e-mail addresses and the generator prefixes [mailto:] when
    [emailLinkType] is ['mailto'], and only then: with ['url'] or with no
    [emailLinkType] at all the validator applies the rule for URLs and the
    link is the contact id as it is. *)
Theorem email_link_type_dispatch :
  forall (URL_hostname : jsstring -> result jsstring) (pConfig : PlatformConfig),
    (emailLinkType pConfig <> Some mailto ->
       getValidationError URL_hostname email pConfig
       = validators_url URL_hostname (contactId pConfig)
       /\ getPlatformLink email pConfig = Ok (contactId pConfig))
    /\
    (emailLinkType pConfig = Some mailto ->
       getValidationError URL_hostname email pConfig
       = validators_email (contactId pConfig)
       /\ getPlatformLink email pConfig = Ok (lit "mailto:" ++ contactId pConfig))
    /\
    (getPlatformLink email pConfig = Ok (lit "mailto:" ++ contactId pConfig) ->
       emailLinkType pConfig = Some mailto).
Proof.
  intros U pc. unfold getValidationError, getPlatformLink. cbv zeta.
  rewrite or_else_nil.
  destruct (emailLinkType pc) as [[|]|].
  - split; [congruence|]. split; auto.
  - split; [auto|]. split; [discriminate|].
    intros H. exfalso. injection H as H.
    apply (f_equal (@List.length N)) in H. simpl in H. lia.
  - split; [auto|]. split; [discriminate|].
    intros H. exfalso. injection H as H.
    apply (f_equal (@List.length N)) in H. simpl in H. lia.
Qed.

Lemma email_link_type_dispatch_witness :
  (getValidationError (fun _ => Throw TypeError) email (contact_page None) = None
   /\ getPlatformLink email (contact_page None) = Ok (lit "/contact"))
  /\ (getValidationError (fun _ => Throw TypeError) email (contact_page (Some url)) = None
      /\ getPlatformLink email (contact_page (Some url)) = Ok (lit "/contact"))
  /\ (getValidationError (fun _ => Throw TypeError) email (contact_page (Some mailto))
      = Some (lit "Please enter a valid email address.")
      /\ getPlatformLink email (contact_page (Some mailto)) = Ok (lit "mailto:/contact")).
Proof.
  split; [|split].
  - exact (proj1 (email_link_type_dispatch (fun _ => Throw TypeError) (contact_page None))
             ltac:(discriminate)).
  - exact (proj1 (email_link_type_dispatch (fun _ => Throw TypeError)
                    (contact_page (Some url)))
             ltac:(discriminate)).
  - exact (proj1 (proj2 (email_link_type_dispatch (fun _ => Throw TypeError)
                           (contact_page (Some mailto))))
             eq_refl).
Defined.

(** ** The phone link *)

Lemma removeSpaceRuns_filter (s : jsstring) :
  removeSpaceRuns s = filter notWhiteSpace s /\ in_run s = filter notWhiteSpace s.
Proof.
  induction s as [|c s [IH1 IH2]]; [split; reflexivity|].
  cbn [removeSpaceRuns in_run filter].
  change (notWhiteSpace c) with (negb (isWhiteSpace c)).
  destruct (isWhiteSpace c); cbn [negb].
  - split; exact IH2.
  - rewrite IH1. split; reflexivity.
Qed.

(** C3.  The phone link is [tel:] followed by the units of the contact id
    that are not white space, in their order; for "+1 (555) 123-4567" it
    is "tel:+1(555)123-4567". *)
Theorem phone_link_strips_white_space :
  forall pConfig : PlatformConfig,
    getPlatformLink phone pConfig
    = Ok (lit "tel:" ++ filter notWhiteSpace (contactId pConfig))
    /\ getPlatformLink phone (plain true (lit "+1 (555) 123-4567"))
       = Ok (lit "tel:+1(555)123-4567").
Proof.
  intros pc. split; [|reflexivity].
  unfold getPlatformLink. cbv zeta.
  rewrite (proj1 (removeSpaceRuns_filter (contactId pc))). reflexivity.
Qed.

(** ** The WhatsApp link *)

Section EncodingFacts.

Ltac codes :=
  repeat match goal with
         | |- context [code ?a] =>
             let v := eval vm_compute in (code a) in change (code a) with v
         | H : context [code ?a] |- _ =>
             let v := eval vm_compute in (code a) in change (code a) with v in H
         end.

(** The units that are copied are ASCII: none is a surrogate. *)
Lemma isUnescaped_not_surrogate (c : N) :
  isUnescaped c = true -> isHighSurrogate c = false /\ isLowSurrogate c = false.
Proof.
  unfold isUnescaped, isHighSurrogate, isLowSurrogate. intros H.
  assert (Hc : (c <= 126)%N).
  { repeat rewrite orb_true_iff in H. rewrite !between_iff, !N.eqb_eq in H.
    codes. lia. }
  unfold between. split; apply andb_false_iff; left; apply N.leb_gt; lia.
Qed.

(** [encodeURIComponent] returns on the strings with no unpaired
    surrogate, and throws on the others. *)
Lemma encodeURIComponent_returns_iff (s : jsstring) :
  (exists e, encodeURIComponent s = Ok e) <-> isWellFormed s = true.
Proof.
  remember (List.length s) as n eqn:Hn.
  revert s Hn. induction n as [n IH] using lt_wf_ind. intros s Hn.
  destruct s as [|c rest]; [simpl; split; eauto|].
  cbn [encodeURIComponent isWellFormed].
  assert (IHrest : (exists e, encodeURIComponent rest = Ok e) <-> isWellFormed rest = true).
  { apply (IH (List.length rest)); [subst n; simpl; lia | reflexivity]. }
  assert (Bind : forall (t : jsstring) (f : jsstring -> jsstring),
             (exists e, (r <- encodeURIComponent t ;; Ok (f r)) = Ok e)
             <-> (exists e, encodeURIComponent t = Ok e)).
  { intros t f. destruct (encodeURIComponent t) as [r|ex]; simpl; split;
      intros [x Hx]; eauto; discriminate. }
  destruct (isUnescaped c) eqn:Hu.
  - destruct (isUnescaped_not_surrogate c Hu) as [-> ->]. simpl.
    rewrite Bind. exact IHrest.
  - destruct (isHighSurrogate c) eqn:Hh.
    + destruct rest as [|d rest']; [split; [intros [e He]; discriminate | discriminate]|].
      destruct (isLowSurrogate d); simpl.
      * rewrite Bind. apply (IH (List.length rest')); [subst n; simpl; lia | reflexivity].
      * split; [intros [e He]; discriminate | discriminate].
    + destruct (isLowSurrogate c); simpl.
      * split; [intros [e He]; discriminate | discriminate].
      * rewrite Bind. exact IHrest.
Qed.

End EncodingFacts.

(** C2, as the code has it.  When the pre-filled message, if there is one,
    has no unpaired surrogate, the WhatsApp link is [https://wa.me/]
    followed by the contact id, and [?text=] with the URL-encoded message
    is appended exactly when the message is set and not empty.  For
    "15551234567" and "Hi" the link is https://wa.me/15551234567?text=Hi. *)
Theorem whatsapp_link_format :
  forall pConfig : PlatformConfig,
    (forall message, predefinedMessage pConfig = Some message ->
                     isWellFormed message = true) ->
    (predefinedMessage pConfig = None \/ predefinedMessage pConfig = Some [] ->
       getPlatformLink whatsapp pConfig
       = Ok (lit "https://wa.me/" ++ contactId pConfig))
    /\ (forall message,
          predefinedMessage pConfig = Some message -> message <> [] ->
          exists encodedMessage,
            encodeURIComponent message = Ok encodedMessage /\
            getPlatformLink whatsapp pConfig
            = Ok (lit "https://wa.me/" ++ contactId pConfig
                    ++ lit "?text=" ++ encodedMessage))
    /\ ((exists encodedMessage,
            getPlatformLink whatsapp pConfig
            = Ok (lit "https://wa.me/" ++ contactId pConfig
                    ++ lit "?text=" ++ encodedMessage))
        <-> (exists message, predefinedMessage pConfig = Some message /\ message <> []))
    /\ getPlatformLink whatsapp (whatsapp_with (lit "15551234567") (Some (lit "Hi")))
       = Ok (lit "https://wa.me/15551234567?text=Hi").
Proof.
  intros pc Hwf.
  assert (Hno : forall e : jsstring,
             Ok (lit "https://wa.me/" ++ contactId pc)
             <> Ok (lit "https://wa.me/" ++ contactId pc ++ lit "?text=" ++ e)).
  { intros e H. injection H as H. apply (f_equal (@List.length N)) in H.
    rewrite !length_app in H. simpl in H. lia. }
  assert (Hyes : forall message,
             predefinedMessage pc = Some message -> message <> [] ->
             exists e, encodeURIComponent message = Ok e /\
                       getPlatformLink whatsapp pc
                       = Ok (lit "https://wa.me/" ++ contactId pc ++ lit "?text=" ++ e)).
  { intros msg Hm Hne. destruct (proj2 (encodeURIComponent_returns_iff msg) (Hwf msg Hm))
      as [e He].
    exists e. split; [exact He|].
    unfold getPlatformLink. cbv zeta. rewrite Hm.
    destruct msg as [|c msg]; [congruence|]. cbn [truthy]. rewrite He. reflexivity. }
  split; [|split; [exact Hyes | split; [|reflexivity]]].
  - intros [Hm | Hm]; unfold getPlatformLink; cbv zeta; rewrite Hm; reflexivity.
  - split.
    + intros [e He].
      destruct (predefinedMessage pc) as [[|c msg]|] eqn:Hm.
      * exfalso. apply (Hno e). rewrite <- He.
        unfold getPlatformLink. cbv zeta. rewrite Hm. reflexivity.
      * exists (c :: msg). split; [reflexivity | discriminate].
      * exfalso. apply (Hno e). rewrite <- He.
        unfold getPlatformLink. cbv zeta. rewrite Hm. reflexivity.
    + intros [msg [Hm Hne]]. destruct (Hyes msg Hm Hne) as [e [_ He]]. eauto.
Qed.

Lemma whatsapp_link_format_witness :
  (exists encodedMessage,
      encodeURIComponent (lit "Hi there") = Ok encodedMessage /\
      getPlatformLink whatsapp (whatsapp_with (lit "15551234567") (Some (lit "Hi there")))
      = Ok (lit "https://wa.me/15551234567?text=" ++ encodedMessage))
  /\ encodeURIComponent (lit "Hi there") = Ok (lit "Hi%20there").
Proof.
  split; [|reflexivity].
  refine (proj1 (proj2 (whatsapp_link_format
                          (whatsapp_with (lit "15551234567") (Some (lit "Hi there"))) _))
            (lit "Hi there") eq_refl _).
  - intros message H. injection H as <-. reflexivity.
  - discriminate.
Defined.

(** A message that is one unpaired surrogate: [encodeURIComponent] throws
    a URIError, and so does the link builder. *)
Lemma whatsapp_link_unpaired_surrogate :
  getPlatformLink whatsapp (whatsapp_with (lit "15551234567") (Some [0xD800%N]))
  = Throw URIError.
Proof. reflexivity. Qed.

(** ** The platform map *)

Section PlatformMapFacts.

Lemma Platform_eqb_eq (a b : Platform) : Platform_eqb a b = true <-> a = b.
Proof. destruct a, b; simpl; split; congruence. Qed.

Lemma Platform_eqb_refl (a : Platform) : Platform_eqb a a = true.
Proof. apply Platform_eqb_eq. reflexivity. Qed.

Lemma Platform_eqb_neq (a b : Platform) : Platform_eqb a b = false <-> a <> b.
Proof.
  rewrite <- Platform_eqb_eq. destruct (Platform_eqb a b); split; congruence.
Qed.

Lemma get_In_keys (p : Platform) (o : PlatformMap) :
  In p (keys o) <-> exists pc, get p o = Some pc.
Proof.
  induction o as [|[k v] o IH]; simpl.
  - split; [tauto | intros [pc H]; discriminate].
  - destruct (Platform_eqb p k) eqn:E.
    + apply Platform_eqb_eq in E. subst k. split; eauto.
    + apply Platform_eqb_neq in E. rewrite <- IH. split.
      * intros [H|H]; [congruence | exact H].
      * auto.
Qed.

Lemma get_set_same (k : Platform) (v : PlatformConfig) (o : PlatformMap) :
  get k (set k v o) = Some v.
Proof.
  induction o as [|[k' v'] o IH]; simpl.
  - rewrite Platform_eqb_refl. reflexivity.
  - destruct (Platform_eqb k k') eqn:E; simpl; rewrite E; [reflexivity | exact IH].
Qed.

Lemma get_set_other (p k : Platform) (v : PlatformConfig) (o : PlatformMap) :
  p <> k -> get p (set k v o) = get p o.
Proof.
  intros Hne. induction o as [|[k' v'] o IH]; simpl.
  - apply Platform_eqb_neq in Hne. rewrite Hne. reflexivity.
  - destruct (Platform_eqb k k') eqn:E; simpl.
    + apply Platform_eqb_eq in E. subst k'.
      apply Platform_eqb_neq in Hne. rewrite Hne. reflexivity.
    + rewrite IH. reflexivity.
Qed.

(** Writing under a key that is there keeps the keys and their order. *)
Lemma keys_set (k : Platform) (v : PlatformConfig) (o : PlatformMap) :
  In k (keys o) -> keys (set k v o) = keys o.
Proof.
  induction o as [|[k' v'] o IH]; simpl; [tauto|].
  intros H. destruct (Platform_eqb k k') eqn:E; simpl; [reflexivity|].
  apply Platform_eqb_neq in E. f_equal. apply IH.
  destruct H as [H|H]; [congruence | exact H].
Qed.

Lemma get_None_not_In (p : Platform) (o : PlatformMap) :
  ~ In p (keys o) -> get p o = None.
Proof.
  intros H. destruct (get p o) eqn:E; [|reflexivity].
  exfalso. apply H. apply get_In_keys. eauto.
Qed.


End PlatformMapFacts.

(** ** Switching the e-mail link type *)

(** C7.  Setting [emailLinkType] of the e-mail platform gives a
    configuration whose e-mail entry has the new link type and an empty
    contact id and is otherwise as before; the entries of the other
    platforms, the keys and their order, and every top-level field are as
    before. *)
Theorem email_link_type_edit_frame :
  forall (prevConfig : WidgetConfig) (value : option EmailLinkType)
         (prev : PlatformConfig),
    get email (platforms prevConfig) = Some prev ->
    exists next,
      handlePlatformFieldChange email (emailLinkType_is value) prevConfig = Some next
      /\ get email (platforms next)
         = Some {| enabled := enabled prev;
                   contactId := [];
                   predefinedMessage := predefinedMessage prev;
                   emailLinkType := value;
                   customIconSvg := customIconSvg prev;
                   color := color prev |}
      /\ (forall p, p <> email -> get p (platforms next) = get p (platforms prevConfig))
      /\ keys (platforms next) = keys (platforms prevConfig)
      /\ headerText next = headerText prevConfig
      /\ headerBgColor next = headerBgColor prevConfig
      /\ headerTextColor next = headerTextColor prevConfig
      /\ mainButtonColor next = mainButtonColor prevConfig
      /\ mainIconColor next = mainIconColor prevConfig
      /\ position next = position prevConfig
      /\ buttonAnimation next = buttonAnimation prevConfig
      /\ widgetShape next = widgetShape prevConfig
      /\ menuSpacing next = menuSpacing prevConfig.
Proof.
  intros c v prev Hget.
  unfold handlePlatformFieldChange. rewrite Hget. cbn [Platform_eqb isEmailLinkType andb].
  eexists. split; [reflexivity|].
  cbn [platforms with_platforms with_field enabled contactId predefinedMessage
       emailLinkType customIconSvg color headerText headerBgColor headerTextColor
       mainButtonColor mainIconColor position buttonAnimation widgetShape menuSpacing].
  split; [apply get_set_same|].
  split; [intros p Hp; apply get_set_other; exact Hp|].
  split; [apply keys_set; apply get_In_keys; eauto|].
  repeat split.
Qed.

Lemma email_link_type_edit_frame_witness :
  exists next,
    handlePlatformFieldChange email (emailLinkType_is (Some url)) DEFAULT_CONFIG = Some next
    /\ get email (platforms next)
       = Some {| enabled := false; contactId := []; predefinedMessage := None;
                 emailLinkType := Some url; customIconSvg := None; color := None |}
    /\ (forall p, p <> email -> get p (platforms next) = get p (platforms DEFAULT_CONFIG))
    /\ keys (platforms next) = keys (platforms DEFAULT_CONFIG)
    /\ headerText next = headerText DEFAULT_CONFIG
    /\ headerBgColor next = headerBgColor DEFAULT_CONFIG
    /\ headerTextColor next = headerTextColor DEFAULT_CONFIG
    /\ mainButtonColor next = mainButtonColor DEFAULT_CONFIG
    /\ mainIconColor next = mainIconColor DEFAULT_CONFIG
    /\ position next = position DEFAULT_CONFIG
    /\ buttonAnimation next = buttonAnimation DEFAULT_CONFIG
    /\ widgetShape next = widgetShape DEFAULT_CONFIG
    /\ menuSpacing next = menuSpacing DEFAULT_CONFIG.
Proof.
  exact (@email_link_type_edit_frame DEFAULT_CONFIG (Some url)
           {| enabled := false; contactId := lit "hello@example.com";
              predefinedMessage := None; emailLinkType := Some mailto;
              customIconSvg := None; color := None |}
           eq_refl).
Defined.

(** ** The generator *)

Section GeneratorFacts.

Variable getIconSvgString : Platform -> jsstring -> jsstring.

Lemma filterM_ext {A} (f g : A -> result bool) (l : list A) :
  (forall x, f x = g x) -> filterM f l = filterM g l.
Proof.
  intros H. induction l as [|x l IH]; simpl; [reflexivity|].
  rewrite H, IH. reflexivity.
Qed.

Lemma mapM_ext {A B} (f g : A -> result B) (l : list A) :
  (forall x, f x = g x) -> mapM f l = mapM g l.
Proof.
  intros H. induction l as [|x l IH]; simpl; [reflexivity|].
  rewrite H, IH. reflexivity.
Qed.

(** A filter whose predicate returns on every element returns the
    filtered list. *)
Lemma filterM_returns {A} (f : A -> result bool) (g : A -> bool) (l : list A) :
  (forall x, In x l -> f x = Ok (g x)) -> filterM f l = Ok (filter g l).
Proof.
  induction l as [|x l IH]; intros H; simpl; [reflexivity|].
  rewrite (H x (or_introl eq_refl)). simpl.
  rewrite IH by (intros y Hy; apply H; right; exact Hy). reflexivity.
Qed.

(** A map whose callback returns on every element returns one result per
    element, in order. *)
Lemma mapM_returns {A B} (f : A -> result B) (P : A -> B -> Prop) (l : list A) :
  (forall x, In x l -> exists y, f x = Ok y /\ P x y) ->
  exists ys, mapM f l = Ok ys /\ Forall2 P l ys.
Proof.
  induction l as [|x l IH]; intros H; simpl.
  - exists []. split; [reflexivity | constructor].
  - destruct (H x (or_introl eq_refl)) as [y [Hy Py]].
    destruct IH as [ys [Hys Pys]]; [intros z Hz; apply H; right; exact Hz|].
    exists (y :: ys). rewrite Hy, Hys. split; [reflexivity | constructor; assumption].
Qed.

Lemma platformOf_same (c1 c2 : WidgetConfig) :
  (forall p, get p (platforms c1) = get p (platforms c2)) ->
  forall p, platformOf c1 p = platformOf c2 p.
Proof. intros H p. unfold platformOf. rewrite H. reflexivity. Qed.

Lemma html_same (c1 c2 : WidgetConfig) :
  same_config c1 c2 -> html getIconSvgString c1 = html getIconSvgString c2.
Proof.
  intros [Hget [Ht [Hbg [Htc [_ [Hic _]]]]]].
  pose proof (platformOf_same c1 c2 Hget) as Hp.
  assert (He : enabledPlatforms c1 = enabledPlatforms c2).
  { unfold enabledPlatforms. apply filterM_ext. intros p. rewrite Hp. reflexivity. }
  assert (Hhead : html_head c1 = html_head c2).
  { unfold html_head. rewrite Ht, Hbg, Htc. reflexivity. }
  assert (Htail : html_tail c1 = html_tail c2).
  { unfold html_tail. rewrite Hic. reflexivity. }
  unfold html. rewrite He.
  destruct (enabledPlatforms c2) as [shown|e]; cbn [bind]; [|reflexivity].
  rewrite (mapM_ext (platform_item getIconSvgString c1)
                    (platform_item getIconSvgString c2))
    by (intros p; unfold platform_item; rewrite Hp; reflexivity).
  destruct (mapM (platform_item getIconSvgString c2) shown) as [items|e];
    cbn [bind]; [|reflexivity].
  rewrite Hhead, Htail. reflexivity.
Qed.

Lemma css_same (c1 c2 : WidgetConfig) : same_config c1 c2 -> css c1 = css c2.
Proof.
  intros [_ [_ [_ [_ [Hb [_ [Hpos [Han [Hsh Hsp]]]]]]]]].
  unfold css, css_rules. rewrite Hb, Hpos, Han, Hsh, Hsp. reflexivity.
Qed.


Lemma same_config_refl (c : WidgetConfig) : same_config c c.
Proof. unfold same_config. repeat split. Qed.


End GeneratorFacts.

(** C1.  The generator is a function of the value of the configuration:
    two configurations with the same entry under every platform and the
    same top-level fields give the same result, the same string or the
    same exception.  In particular two runs on one configuration agree. *)
Theorem generateWidgetCode_deterministic :
  forall (getIconSvgString : Platform -> jsstring -> jsstring)
         (config1 config2 : WidgetConfig),
    same_config config1 config2 ->
    generateWidgetCode getIconSvgString config1
    = generateWidgetCode getIconSvgString config2.
Proof.
  intros icons c1 c2 Hsame. unfold generateWidgetCode.
  rewrite (html_same icons c1 c2 Hsame).
  destruct (html icons c2) as [markup|e]; cbn [bind]; [|reflexivity].
  rewrite (css_same c1 c2 Hsame). reflexivity.
Qed.

Lemma generateWidgetCode_deterministic_witness :
  generateWidgetCode plain_icon DEFAULT_CONFIG
  = generateWidgetCode plain_icon DEFAULT_CONFIG
  /\ generateWidgetCode plain_icon DEFAULT_reversed
     = generateWidgetCode plain_icon DEFAULT_CONFIG.
Proof.
  split.
  - apply (generateWidgetCode_deterministic plain_icon DEFAULT_CONFIG DEFAULT_CONFIG).
    apply same_config_refl.
  - apply (generateWidgetCode_deterministic plain_icon DEFAULT_reversed DEFAULT_CONFIG).
    split; [intros p; destruct p; reflexivity | repeat split].
Defined.

(** ** The platform list *)

Section PlatformListFacts.

Variable getIconSvgString : Platform -> jsstring -> jsstring.

Lemma startsWith_app (needle a b : jsstring) :
  startsWith needle a = true -> startsWith needle (a ++ b) = true.
Proof.
  revert a. induction needle as [|n needle IH]; intros a H; [reflexivity|].
  destruct a as [|c a]; [discriminate|].
  simpl in *. apply andb_true_iff in H. destruct H as [-> H].
  simpl. apply IH. exact H.
Qed.

Lemma occurrences_app_l (needle a b : jsstring) :
  occurrences needle a <= occurrences needle (a ++ b).
Proof.
  induction a as [|c a IH]; [simpl; lia|].
  change ((c :: a) ++ b) with (c :: (a ++ b)). cbn [occurrences].
  destruct (startsWith needle (c :: a)) eqn:E.
  - change (c :: a ++ b) with ((c :: a) ++ b).
    rewrite (startsWith_app needle (c :: a) b E). lia.
  - destruct (startsWith needle (c :: a ++ b)); lia.
Qed.


(** Every link builder but the one of WhatsApp returns; that one returns
    when the message can be encoded. *)
Lemma getPlatformLink_returns (p : Platform) (pc : PlatformConfig) :
  (p = whatsapp -> forall message,
       predefinedMessage pc = Some message -> isWellFormed message = true) ->
  exists link, getPlatformLink p pc = Ok link.
Proof.
  intros H. destruct p; unfold getPlatformLink; cbv zeta; eauto.
  - destruct (predefinedMessage pc) as [msg|] eqn:Hm; eauto.
    destruct (truthy msg); eauto.
    destruct (proj2 (encodeURIComponent_returns_iff msg) (H eq_refl msg eq_refl))
      as [e ->].
    simpl. eauto.
  - destruct (emailLinkType pc) as [[|]|]; eauto.
Qed.

Lemma enabledPlatforms_typed (config : WidgetConfig) :
  typed (platforms config) -> enabledPlatforms config = Ok (shown config).
Proof.
  intros [_ Hall]. unfold enabledPlatforms, shown.
  apply filterM_returns. intros p _.
  unfold platformOf, is_enabled.
  destruct (proj1 (get_In_keys (id p) (platforms config)) (Hall (id p))) as [pc ->].
  reflexivity.
Qed.

Lemma shown_enabled (config : WidgetConfig) (p : PlatformEntry) :
  In p (shown config) -> is_enabled config (id p) = true.
Proof. unfold shown. intros H. apply filter_In in H. apply H. Qed.

Lemma platform_item_returns (config : WidgetConfig) (p : PlatformEntry) :
  encodable config ->
  is_enabled config (id p) = true ->
  exists item, platform_item getIconSvgString config p = Ok item
               /\ entry_of getIconSvgString config p item.
Proof.
  intros Henc Hen. unfold is_enabled in Hen.
  destruct (get (id p) (platforms config)) as [pc|] eqn:Hget; [|discriminate].
  destruct (getPlatformLink_returns (id p) pc) as [link Hlink].
  { intros Hw msg Hm. rewrite Hw in Hget. exact (Henc pc msg Hget Hen Hm). }
  eexists. split.
  - unfold platform_item, platformOf. rewrite Hget. cbn [bind]. rewrite Hlink.
    cbn [bind]. reflexivity.
  - exists pc, link. auto.
Qed.

Lemma html_of_shown (config : WidgetConfig) :
  typed (platforms config) -> encodable config ->
  exists items,
    html getIconSvgString config
    = Ok (html_head config ++ join item_separator items ++ html_tail config)
    /\ Forall2 (entry_of getIconSvgString config) (shown config) items.
Proof.
  intros Ht Henc.
  destruct (mapM_returns (platform_item getIconSvgString config)
              (entry_of getIconSvgString config) (shown config))
    as [items [Hitems Hall]].
  { intros p Hp. apply platform_item_returns; [exact Henc | apply shown_enabled, Hp]. }
  exists items. split; [|exact Hall].
  unfold html. rewrite (enabledPlatforms_typed config Ht). cbn [bind].
  rewrite Hitems. reflexivity.
Qed.

(** The generator returns exactly on the configurations whose enabled
    WhatsApp message can be encoded; on the others it throws. *)
Lemma generateWidgetCode_returns_iff (config : WidgetConfig) :
  typed (platforms config) ->
  ((exists out, generateWidgetCode getIconSvgString config = Ok out)
   <-> encodable config).
Proof.
  intros Ht. split.
  - intros [out Hout] pc msg Hget Hen Hm.
    destruct (isWellFormed msg) eqn:Hwf; [reflexivity | exfalso].
    assert (Hthrow : exists e, encodeURIComponent msg = Throw e).
    { destruct (encodeURIComponent msg) as [r|e] eqn:E; [|eauto].
      assert (isWellFormed msg = true)
        by (apply encodeURIComponent_returns_iff; eauto).
      congruence. }
    destruct Hthrow as [e He].
    assert (Hlink : getPlatformLink whatsapp pc = Throw e).
    { unfold getPlatformLink. cbv zeta. rewrite Hm.
      destruct msg as [|u msg]; [discriminate Hwf|]. cbn [truthy]. rewrite He.
      reflexivity. }
    assert (Hshown : exists rest,
               shown config = {| id := whatsapp; name := lit "WhatsApp" |} :: rest).
    { unfold shown, PLATFORMS. cbn [filter id]. unfold is_enabled at 1.
      rewrite Hget, Hen. eauto. }
    destruct Hshown as [rest Hshown].
    unfold generateWidgetCode, html in Hout.
    rewrite (enabledPlatforms_typed config Ht), Hshown in Hout.
    cbn [bind mapM] in Hout. unfold platform_item at 1, platformOf in Hout.
    cbn [id] in Hout. rewrite Hget in Hout. cbn [bind] in Hout.
    rewrite Hlink in Hout. cbn [bind] in Hout. discriminate Hout.
  - intros Henc. destruct (html_of_shown config Ht Henc) as [items [Hhtml _]].
    eexists. unfold generateWidgetCode. rewrite Hhtml. reflexivity.
Qed.



Lemma header_in_html_head (config : WidgetConfig) :
  1 <= occurrences (lit "<div class=`scw-header`") (html_head config).
Proof.
  unfold html_head.
  match goal with
  | |- _ <= occurrences ?n (?a ++ ?b) =>
      apply (Nat.le_trans _ (occurrences n a)); [|apply occurrences_app_l]
  end.
  vm_compute. reflexivity.
Qed.

Lemma button_in_html_tail (config : WidgetConfig) :
  1 <= occurrences (lit "<button class=`scw-fab`") (html_tail config).
Proof.
  unfold html_tail.
  match goal with
  | |- _ <= occurrences ?n (?a ++ ?b) =>
      apply (Nat.le_trans _ (occurrences n a)); [|apply occurrences_app_l]
  end.
  vm_compute. reflexivity.
Qed.

End PlatformListFacts.

(** *** Counting the entries in the text *)

Section MarkerFacts.

Variable getIconSvgString : Platform -> jsstring -> jsstring.























End MarkerFacts.





(** Without the condition on the texts the count fails: an icon that
    holds the class attribute of the entries gives the one enabled
    platform two of them. *)
Lemma platform_list_doubled_by_icon :
  exists out,
    generateWidgetCode plain_icon
      (messenger_only (lit "<i class=`scw-platform-item`></i>")) = Ok out
    /\ List.length (shown (messenger_only (lit "<i class=`scw-platform-item`></i>"))) = 1
    /\ occurrences entry_marker out = 2.
Proof.
  exists (match generateWidgetCode plain_icon
                  (messenger_only (lit "<i class=`scw-platform-item`></i>")) with
          | Ok o => o
          | Throw _ => []
          end).
  split; [vm_compute; reflexivity|]. split; vm_compute; reflexivity.
Qed.

(** The default configuration and the one with every platform disabled. *)
Lemma platform_list_examples :
  map id (shown DEFAULT_CONFIG) = [whatsapp; messenger; telegram]
  /\ map id (shown DEFAULT_reversed) = [whatsapp; messenger; telegram]
  /\ shown all_disabled = []
  /\ generateWidgetCode plain_icon all_disabled
     = Ok (bundle (html_head all_disabled ++ html_tail all_disabled)
                  (css all_disabled) js).
Proof. repeat split; vm_compute; reflexivity. Qed.


(** ** Switching the animation on *)

(** The text of each animation is one rule that animates the floating
    button and the [@keyframes] definition that the rule names. *)
Lemma getAnimationCss_block (a : ButtonAnimation) :
  a <> none -> is_animation_block (keyframesName a) (getAnimationCss a).
Proof.
  intros Ha. unfold is_animation_block. destruct a; [contradiction Ha; reflexivity | | | | ].
  - exists (lit "2s infinite cubic-bezier(0.4, 0, 0.6, 1)"),
      (lit "
    0%, 100% { transform: scale(1); }
    50% { transform: scale(1.1); }").
    split; [reflexivity|]. split; [reflexivity|]. split; [discriminate|].
    split; [reflexivity|]. split; [reflexivity | vm_compute; lia].
  - exists (lit "1.5s infinite ease-in-out"),
      (lit "
    0%, 100% { transform: translateY(0); }
    50% { transform: translateY(-15%); }").
    split; [reflexivity|]. split; [reflexivity|]. split; [discriminate|].
    split; [reflexivity|]. split; [reflexivity | vm_compute; lia].
  - exists (lit "2.5s infinite linear"),
      (lit "
    0%, 100% { opacity: 1; }
    50% { opacity: 0.6; }").
    split; [reflexivity|]. split; [reflexivity|]. split; [discriminate|].
    split; [reflexivity|]. split; [reflexivity | vm_compute; lia].
  - exists (lit "0.8s infinite ease-in-out"),
      (lit "
    0%, 100% { transform: translateX(0); }
    10%, 30%, 50%, 70%, 90% { transform: translateX(-5px); }
    20%, 40%, 60%, 80% { transform: translateX(5px); }").
    split; [reflexivity|]. split; [reflexivity|]. split; [discriminate|].
    split; [reflexivity|]. split; [reflexivity | vm_compute; lia].
Qed.



(* ================================================================== *)
(** * Further properties *)

(** ** The matcher, in general *)

Section MatcherSteps.

Lemma m_Chr (p : N -> bool) (i : nat) (s : jsstring) (k : state -> bool) :
  m (Chr p) (i, s) k = true <->
  exists c rest, s = c :: rest /\ p c = true /\ k (S i, rest) = true.
Proof.
  cbn [m snd fst]. destruct s as [|c rest].
  - split; [discriminate | intros [c [rest [H _]]]; discriminate].
  - rewrite andb_true_iff. split.
    + intros [Hp Hk]. exists c, rest. auto.
    + intros [c' [rest' [H [Hp Hk]]]]. injection H as -> ->. auto.
Qed.

Lemma m_Eos (i : nat) (s : jsstring) (k : state -> bool) :
  m Eos (i, s) k = true <-> s = [] /\ k (i, []) = true.
Proof.
  cbn [m snd fst]. destruct s as [|c rest].
  - split; [auto | intros [_ H]; exact H].
  - split; [discriminate | intros [H _]; discriminate].
Qed.

(** A repetition of a class splits the input in a run of the class, of a
    length within the bounds, and the rest. *)
Lemma m_Rep_class (p : N -> bool) (lo : nat) (hi : option nat)
      (i : nat) (s : jsstring) (k : state -> bool) :
  within hi lo ->
  (m (Rep (Chr p) lo hi) (i, s) k = true <->
   exists run rest,
     s = run ++ rest /\ lo <= List.length run /\ within hi (List.length run)
     /\ forallb p run = true /\ k (i + List.length run, rest) = true).
Proof.
  intros Hw.
  change (m (Rep (Chr p) lo hi) (i, s) k)
    with (rep (m (Chr p)) k (S (lo + List.length s)) lo hi (i, s)).
  rewrite rep_class by (lia || assumption).
  split.
  - intros [n [Hlo [Hhi [Hlen [Hall Hk]]]]].
    exists (firstn n s), (skipn n s).
    rewrite firstn_skipn, length_firstn, Nat.min_l by exact Hlen. auto.
  - intros [run [rest [-> [Hlo [Hhi [Hall Hk]]]]]].
    exists (List.length run).
    rewrite firstn_app, Nat.sub_diag, firstn_all, firstn_O, app_nil_r.
    rewrite skipn_app, Nat.sub_diag, skipn_all, skipn_O.
    rewrite length_app. repeat split; auto. lia.
Qed.

(** A pattern that is one class, searched anywhere. *)
Lemma test_class (p : N -> bool) (s : jsstring) :
  test (Chr p) s = existsb p s.
Proof.
  unfold test. generalize 0. induction s as [|c s IH]; intros i; simpl.
  - reflexivity.
  - rewrite IH, andb_true_r. reflexivity.
Qed.

End MatcherSteps.

(** ** The patterns of the other validators *)

Section PatternFacts.

Lemma m_Seq (r1 r2 : regex) (x : state) (k : state -> bool) :
  m (r1 @@ r2) x k = m r1 x (fun y => m r2 y k).
Proof. reflexivity. Qed.

Lemma m_Look (r : regex) (x : state) (k : state -> bool) :
  m (Look r) x k = m r x (fun _ => true) && k x.
Proof. reflexivity. Qed.

(** [/^[^\s@]+@[^\s@]+\.[^\s@]+$/]: a local part, an at sign, a domain,
    a dot and an ending, none empty, none with white space or an at sign. *)
Lemma test_emailRegex (s : jsstring) :
  test Patterns.emailRegex s = true <->
  exists local domain tld,
    s = local ++ code "@" :: domain ++ code "." :: tld
    /\ local <> [] /\ domain <> [] /\ tld <> []
    /\ forallb Patterns.notSpaceOrAt local = true
    /\ forallb Patterns.notSpaceOrAt domain = true
    /\ forallb Patterns.notSpaceOrAt tld = true.
Proof.
  unfold Patterns.emailRegex, many1, chr. rewrite test_Bos. split.
  - intros H.
    rewrite m_Seq in H. apply m_Rep_class in H; [|exact I].
    destruct H as [l [r1 [-> [Hl [_ [Al H]]]]]]. cbv beta in H.
    rewrite m_Seq in H. apply m_Chr in H.
    destruct H as [c1 [r2 [-> [Hc1 H]]]]. cbv beta in H.
    rewrite m_Seq in H. apply m_Rep_class in H; [|exact I].
    destruct H as [d [r3 [-> [Hd [_ [Ad H]]]]]]. cbv beta in H.
    rewrite m_Seq in H. apply m_Chr in H.
    destruct H as [c2 [r4 [-> [Hc2 H]]]]. cbv beta in H.
    rewrite m_Seq in H. apply m_Rep_class in H; [|exact I].
    destruct H as [t [r5 [-> [Ht [_ [At H]]]]]]. cbv beta in H.
    apply m_Eos in H. destruct H as [-> _].
    apply N.eqb_eq in Hc1, Hc2. subst c1 c2.
    exists l, d, t. rewrite app_nil_r.
    repeat split; auto; intros E; subst; simpl in *; lia.
  - intros [l [d [t [-> [Hl [Hd [Ht [Al [Ad At]]]]]]]]].
    assert (Pos : forall x : jsstring, x <> [] -> 1 <= List.length x)
      by (intros [|? ?] ?; [congruence | simpl; lia]).
    rewrite m_Seq. apply m_Rep_class; [exact I|].
    exists l, (code "@" :: d ++ code "." :: t).
    split; [reflexivity|]. split; [auto|]. split; [exact I|]. split; [exact Al|].
    cbv beta. rewrite m_Seq. apply m_Chr.
    exists (code "@"), (d ++ code "." :: t).
    split; [reflexivity|]. split; [apply N.eqb_refl|].
    cbv beta. rewrite m_Seq. apply m_Rep_class; [exact I|].
    exists d, (code "." :: t).
    split; [reflexivity|]. split; [auto|]. split; [exact I|]. split; [exact Ad|].
    cbv beta. rewrite m_Seq. apply m_Chr.
    exists (code "."), t.
    split; [reflexivity|]. split; [apply N.eqb_refl|].
    cbv beta. rewrite m_Seq. apply m_Rep_class; [exact I|].
    exists t, []. rewrite app_nil_r.
    split; [reflexivity|]. split; [auto|]. split; [exact I|]. split; [exact At|].
    cbv beta. apply m_Eos. auto.
Qed.

(** [/^(?=.*\d{7})[\d\s()+-]+$/]: every unit is of the class, and seven
    digits in a row start somewhere on the first line. *)
Lemma test_phone_number (s : jsstring) :
  test Patterns.phone_number s = true <->
  s <> [] /\ forallb Patterns.isPhoneChar s = true
  /\ exists before run after,
       s = before ++ run ++ after
       /\ List.length run = 7 /\ forallb isDigit run = true
       /\ forallb (fun c => negb (isLineTerminator c)) before = true.
Proof.
  unfold Patterns.phone_number, many, many1, exactly, dot.
  rewrite test_Bos, m_Seq, m_Look, andb_true_iff. split.
  - intros [HL HR].
    rewrite m_Seq in HL. apply m_Rep_class in HL; [|exact I].
    destruct HL as [a [r1 [E1 [_ [_ [Aa HL]]]]]]. cbv beta in HL.
    apply m_Rep_class in HL; [|simpl; lia].
    destruct HL as [d [e [E2 [Hd7 [Hd7' [Ad _]]]]]]. simpl in Hd7'.
    rewrite m_Seq in HR. apply m_Rep_class in HR; [|exact I].
    destruct HR as [run [rest [E3 [Hrun [_ [Arun HR]]]]]]. cbv beta in HR.
    apply m_Eos in HR. destruct HR as [-> _]. rewrite app_nil_r in E3. subst run.
    split; [intros E; rewrite E in Hrun; simpl in Hrun; lia|].
    split; [exact Arun|].
    exists a, d, e. subst r1. repeat split; auto. lia.
  - intros [Hne [Aall [a [d [e [E [Hd7 [Ad Aa]]]]]]]]. split.
    + rewrite m_Seq. apply m_Rep_class; [exact I|].
      exists a, (d ++ e). split; [exact E|]. split; [lia|]. split; [exact I|].
      split; [exact Aa|]. cbv beta.
      apply m_Rep_class; [simpl; lia|].
      exists d, e. split; [reflexivity|]. split; [lia|]. split; [simpl; lia|]. auto.
    + rewrite m_Seq. apply m_Rep_class; [exact I|].
      exists s, []. rewrite app_nil_r.
      split; [reflexivity|].
      split; [destruct s; [congruence | simpl; lia]|].
      split; [exact I|]. split; [exact Aall|].
      cbv beta. apply m_Eos. auto.
Qed.

Lemma toLowerASCII_letter (c x : N) :
  (97 <= x <= 122)%N ->
  ((c =? x)%N || (c =? x - 32)%N = true <-> toLowerASCII c = x).
Proof.
  intros Hx. unfold toLowerASCII.
  rewrite orb_true_iff, !N.eqb_eq.
  destruct (between 65 90 c) eqn:B.
  - apply between_iff in B. lia.
  - assert (~ (65 <= c <= 90)%N) by (rewrite <- between_iff; congruence). lia.
Qed.

(** [/^https?:\/\//i]: [http] or [https] in any mix of cases, then [://]. *)
Lemma test_http_scheme (s : jsstring) :
  test Patterns.http_scheme s = true <->
  exists scheme rest,
    s = scheme ++ lit "://" ++ rest
    /\ (map toLowerASCII scheme = lit "http" \/ map toLowerASCII scheme = lit "https").
Proof.
  unfold Patterns.http_scheme, maybe, chr, chr_i. rewrite test_Bos. split.
  - intros H.
    rewrite m_Seq in H. apply m_Chr in H. destruct H as [c1 [r1 [-> [H1 H]]]].
    cbv beta in H. rewrite m_Seq in H. apply m_Chr in H.
    destruct H as [c2 [r2 [-> [H2 H]]]].
    cbv beta in H. rewrite m_Seq in H. apply m_Chr in H.
    destruct H as [c3 [r3 [-> [H3 H]]]].
    cbv beta in H. rewrite m_Seq in H. apply m_Chr in H.
    destruct H as [c4 [r4 [-> [H4 H]]]].
    cbv beta in H. rewrite m_Seq in H. apply m_Rep_class in H; [|simpl; lia].
    destruct H as [opt_s [r5 [-> [_ [Hlen [As H]]]]]].
    cbv beta in H. rewrite m_Seq in H. apply m_Chr in H.
    destruct H as [c5 [r6 [-> [H5 H]]]].
    cbv beta in H. rewrite m_Seq in H. apply m_Chr in H.
    destruct H as [c6 [r7 [-> [H6 H]]]].
    cbv beta in H. apply m_Chr in H.
    destruct H as [c7 [r8 [-> [H7 _]]]].
    apply N.eqb_eq in H5, H6, H7. subst c5 c6 c7.
    apply (toLowerASCII_letter c1 104) in H1; [|lia].
    apply (toLowerASCII_letter c2 116) in H2; [|lia].
    apply (toLowerASCII_letter c3 116) in H3; [|lia].
    apply (toLowerASCII_letter c4 112) in H4; [|lia].
    exists (c1 :: c2 :: c3 :: c4 :: opt_s), r8.
    split; [reflexivity|].
    simpl map. rewrite H1, H2, H3, H4.
    destruct opt_s as [|u [|u' rest']]; simpl in Hlen; [left; reflexivity | | lia].
    right. simpl in As. rewrite andb_true_r in As.
    apply (toLowerASCII_letter u 115) in As; [|lia].
    simpl. rewrite As. reflexivity.
  - intros [scheme [rest [-> Hs]]].
    assert (Hs' : exists c1 c2 c3 c4 tail,
               scheme = c1 :: c2 :: c3 :: c4 :: tail
               /\ toLowerASCII c1 = 104%N /\ toLowerASCII c2 = 116%N
               /\ toLowerASCII c3 = 116%N /\ toLowerASCII c4 = 112%N
               /\ List.length tail <= 1
               /\ forallb (fun c => (c =? 115)%N || (c =? 115 - 32)%N) tail = true).
    { destruct Hs as [Hs|Hs].
      - destruct scheme as [|c1 [|c2 [|c3 [|c4 [|c5 tl]]]]]; try discriminate Hs.
        cbn in Hs. injection Hs as E1 E2 E3 E4.
        exists c1, c2, c3, c4, []. simpl. repeat split; auto.
      - destruct scheme as [|c1 [|c2 [|c3 [|c4 [|c5 [|c6 tl]]]]]]; try discriminate Hs.
        cbn in Hs. injection Hs as E1 E2 E3 E4 E5.
        exists c1, c2, c3, c4, [c5]. simpl. repeat split; auto.
        rewrite andb_true_r. apply (toLowerASCII_letter c5 115); [lia | exact E5]. }
    destruct Hs' as [c1 [c2 [c3 [c4 [tail [-> [H1 [H2 [H3 [H4 [Hlen At]]]]]]]]]]].
    change ((c1 :: c2 :: c3 :: c4 :: tail) ++ lit "://" ++ rest)
      with (c1 :: c2 :: c3 :: c4 :: (tail ++ lit "://" ++ rest)).
    rewrite m_Seq. apply m_Chr. do 2 eexists. split; [reflexivity|].
    split; [apply (toLowerASCII_letter c1 104); [lia | exact H1]|].
    cbv beta. rewrite m_Seq. apply m_Chr. do 2 eexists. split; [reflexivity|].
    split; [apply (toLowerASCII_letter c2 116); [lia | exact H2]|].
    cbv beta. rewrite m_Seq. apply m_Chr. do 2 eexists. split; [reflexivity|].
    split; [apply (toLowerASCII_letter c3 116); [lia | exact H3]|].
    cbv beta. rewrite m_Seq. apply m_Chr. do 2 eexists. split; [reflexivity|].
    split; [apply (toLowerASCII_letter c4 112); [lia | exact H4]|].
    cbv beta. rewrite m_Seq. apply m_Rep_class; [simpl; lia|].
    exists tail, (lit "://" ++ rest).
    split; [reflexivity|]. split; [lia|]. split; [exact Hlen|]. split; [exact At|].
    cbv beta. rewrite m_Seq. apply m_Chr. do 2 eexists. split; [reflexivity|].
    split; [reflexivity|].
    cbv beta. rewrite m_Seq. apply m_Chr. do 2 eexists. split; [reflexivity|].
    split; [reflexivity|].
    cbv beta. apply m_Chr. do 2 eexists. split; [reflexivity|].
    split; reflexivity.
Qed.

End PatternFacts.

(** ** The validators of Messenger names, e-mail addresses, phone numbers
    and URLs *)

(** X1.  The Messenger validator reports no error exactly when the
    trimmed contact id is not empty and holds no white space. *)
Theorem messenger_validator_rule :
  forall value : jsstring,
    validators_messenger value = None <->
    trim value <> [] /\ (forall c, In c (trim value) -> isWhiteSpace c = false).
Proof.
  intros value. unfold validators_messenger. cbv zeta.
  destruct (truthy (trim value)) eqn:Ht; cbn [negb].
  2:{ apply truthy_false_iff in Ht. split; [discriminate | intros [H _]; contradiction]. }
  assert (Hne : trim value <> []) by (intros E; rewrite E in Ht; discriminate).
  unfold Patterns.a_space. rewrite test_class.
  destruct (existsb isWhiteSpace (trim value)) eqn:Ex.
  - split; [discriminate|]. intros [_ H].
    apply existsb_exists in Ex. destruct Ex as [c [Hc Hw]].
    rewrite (H c Hc) in Hw. discriminate.
  - split; [|reflexivity]. intros _. split; [exact Hne|].
    intros c Hc. destruct (isWhiteSpace c) eqn:Hw; [|reflexivity].
    assert (existsb isWhiteSpace (trim value) = true)
      by (apply existsb_exists; eauto).
    congruence.
Qed.

Lemma no_at_sign (x : jsstring) :
  forallb Patterns.notSpaceOrAt x = true ->
  count_occ N.eq_dec x (code "@") = 0 /\ existsb isWhiteSpace x = false.
Proof.
  induction x as [|c x IH]; [auto|]. cbn [forallb count_occ existsb]. intros H.
  apply andb_true_iff in H. destruct H as [Hc Hx].
  destruct (IH Hx) as [IH1 IH2]. unfold Patterns.notSpaceOrAt in Hc.
  apply negb_true_iff, orb_false_iff in Hc. destruct Hc as [Hw Hat].
  apply N.eqb_neq in Hat. rewrite Hw, IH2.
  destruct (N.eq_dec c (code "@")); [contradiction | split; [exact IH1 | reflexivity]].
Qed.

(** X2.  The e-mail validator reports no error exactly when the trimmed
    contact id is a local part, an at sign, a domain, a dot and an ending,
    each part non-empty and free of white space and at signs.  An
    accepted address therefore holds exactly one at sign and no white
    space. *)
Theorem email_validator_rule :
  forall value : jsstring,
    (validators_email value = None <->
     exists local domain tld,
       trim value = local ++ code "@" :: domain ++ code "." :: tld
       /\ local <> [] /\ domain <> [] /\ tld <> []
       /\ forallb Patterns.notSpaceOrAt local = true
       /\ forallb Patterns.notSpaceOrAt domain = true
       /\ forallb Patterns.notSpaceOrAt tld = true)
    /\ (validators_email value = None ->
        count_occ N.eq_dec (trim value) (code "@") = 1
        /\ existsb isWhiteSpace (trim value) = false).
Proof.
  intros value.
  assert (Hiff : validators_email value = None <->
                 test Patterns.emailRegex (trim value) = true).
  { unfold validators_email. cbv zeta.
    destruct (truthy (trim value)) eqn:Ht; cbn [negb].
    - destruct (test Patterns.emailRegex (trim value)); split; congruence.
    - apply truthy_false_iff in Ht. rewrite Ht. split; discriminate. }
  split; [rewrite Hiff; apply test_emailRegex|].
  intros H. apply Hiff, test_emailRegex in H.
  destruct H as [l [d [t [-> [_ [_ [_ [Al [Ad At]]]]]]]]].
  destruct (no_at_sign l Al) as [L1 L2], (no_at_sign d Ad) as [D1 D2],
      (no_at_sign t At) as [T1 T2].
  split.
  - rewrite count_occ_app. cbn [count_occ].
    destruct (N.eq_dec (code "@") (code "@")); [|congruence].
    rewrite count_occ_app. cbn [count_occ].
    destruct (N.eq_dec (code ".") (code "@")); [discriminate|].
    rewrite L1, D1, T1. reflexivity.
  - rewrite existsb_app. cbn [existsb]. rewrite existsb_app. cbn [existsb].
    rewrite L2, D2, T2. reflexivity.
Qed.

Lemma validators_phone_None (value : jsstring) :
  validators_phone value = None <->
  trim value <> [] /\ forallb Patterns.isPhoneChar (trim value) = true
  /\ exists before run after,
       trim value = before ++ run ++ after
       /\ List.length run = 7 /\ forallb isDigit run = true
       /\ forallb (fun c => negb (isLineTerminator c)) before = true.
Proof.
  rewrite <- test_phone_number.
  unfold validators_phone. cbv zeta.
  destruct (truthy (trim value)) eqn:Ht; cbn [negb].
  - destruct (test Patterns.phone_number (trim value)); cbn [negb]; split; congruence.
  - apply truthy_false_iff in Ht. rewrite Ht. split; discriminate.
Qed.

(** X3.  The phone validator reports no error exactly when the trimmed
    contact id is made of digits, white space and the characters ( ) + -
    and seven digits in a row start on its first line.  Seven digits in a
    row after a line break do not count, and "+1 (555) 123-4567", with at
    most four digits in a row, is rejected. *)
Theorem phone_validator_rule :
  (forall value : jsstring,
      validators_phone value = None <->
      trim value <> [] /\ forallb Patterns.isPhoneChar (trim value) = true
      /\ exists before run after,
           trim value = before ++ run ++ after
           /\ List.length run = 7 /\ forallb isDigit run = true
           /\ forallb (fun c => negb (isLineTerminator c)) before = true)
  /\ validators_phone (lit "1" ++ [10%N] ++ lit "1234567")
     = Some (lit "Please enter a valid phone number.")
  /\ validators_phone (lit "1234567" ++ [10%N] ++ lit "1") = None
  /\ validators_phone (lit "+1 (555) 123-4567")
     = Some (lit "Please enter a valid phone number.").
Proof.
  split; [exact validators_phone_None | repeat split].
Qed.

(** X4.  The URL validator accepts every value that, trimmed, starts with
    a slash or a hash, whatever follows.  Any other non-empty value is
    handed to the URL parser, as it is when it starts with [http://] or
    [https://] in any mix of cases and behind [https://] otherwise, and
    is accepted exactly when the parser returns a host name with a dot. *)
Theorem url_validator_rule :
  forall (URL_hostname : jsstring -> result jsstring) (value : jsstring),
    validators_url URL_hostname value = None <->
    (exists rest, trim value = code "/" :: rest \/ trim value = code "#" :: rest)
    \/ (trim value <> []
        /\ exists testUrl hostname,
             ((hasHttpScheme (trim value) /\ testUrl = trim value)
              \/ (~ hasHttpScheme (trim value)
                  /\ testUrl = lit "https://" ++ trim value))
             /\ URL_hostname testUrl = Ok hostname
             /\ In (code ".") hostname).
Proof.
  intros U value. unfold validators_url. cbv zeta.
  set (t := trim value).
  destruct (truthy t) eqn:Ht; cbn [negb].
  2:{ apply truthy_false_iff in Ht. rewrite Ht. split; [discriminate|].
      intros [[rest [H|H]] | [H _]]; congruence. }
  assert (Hne : t <> []) by (intros E; rewrite E in Ht; discriminate).
  assert (Hstart : startsWith (lit "/") t || startsWith (lit "#") t = true <->
                   exists rest, t = code "/" :: rest \/ t = code "#" :: rest).
  { destruct t as [|c rest]; [congruence|]. cbn [lit startsWith].
    rewrite !andb_true_r, orb_true_iff. cbn [N_of_ascii].
    rewrite !N.eqb_eq. split.
    - intros [H|H]; exists rest; [left | right]; subst c; reflexivity.
    - intros [rest' [H|H]]; injection H as H _; [left | right]; symmetry; exact H. }
  destruct (startsWith (lit "/") t || startsWith (lit "#") t) eqn:Hs.
  { split; [intros _; left; apply Hstart; reflexivity | reflexivity]. }
  assert (Hnot : ~ exists rest, t = code "/" :: rest \/ t = code "#" :: rest)
    by (intros H; apply Hstart in H; discriminate).
  assert (Hdot : forall h, includesChar (code ".") h = true <-> In (code ".") h).
  { intros h. unfold includesChar. rewrite existsb_exists. split.
    - intros [x [Hx E]]. apply N.eqb_eq in E. subst x. exact Hx.
    - intros H. exists (code "."). split; [exact H | apply N.eqb_refl]. }
  assert (Hmain : forall testUrl,
     try_catch
       (hostname <- U testUrl ;;
        (if negb (truthy hostname) || negb (includesChar (code ".") hostname)
         then Throw Error else Ok None))
       (fun _ => Some (lit "Please enter a valid URL (e.g., https://example.com) or path (e.g., /contact)."))
     = None <-> exists hostname, U testUrl = Ok hostname /\ In (code ".") hostname).
  { intros testUrl. destruct (U testUrl) as [h|e]; cbn [bind try_catch].
    - destruct (includesChar (code ".") h) eqn:Hi.
      + destruct h as [|c h]; [discriminate Hi|]. cbn [truthy negb orb try_catch].
        split; [intros _; exists (c :: h); split; [reflexivity | apply Hdot, Hi]
               | reflexivity].
      + rewrite orb_true_r. cbn [try_catch]. split; [discriminate|].
        intros [h' [E Hin]]. injection E as <-. apply Hdot in Hin. congruence.
    - split; [discriminate | intros [h [E _]]; discriminate]. }
  destruct (test Patterns.http_scheme t) eqn:Hsch; cbn [negb]; rewrite Hmain.
  - apply test_http_scheme in Hsch. split.
    + intros [h [HU Hin]]. right. split; [exact Hne|].
      exists t, h. split; [left; split; [exact Hsch | reflexivity] | auto].
    + intros [H | [_ [testUrl [h [[[_ ->] | [Hn _]] [HU Hin]]]]]];
        [contradiction | eauto | contradiction].
  - assert (Hn : ~ hasHttpScheme t).
    { intros H. apply test_http_scheme in H. congruence. }
    split.
    + intros [h [HU Hin]]. right. split; [exact Hne|].
      exists (lit "https://" ++ t), h.
      split; [right; split; [exact Hn | reflexivity] | auto].
    + intros [H | [_ [testUrl [h [[[Hy _] | [_ ->]] [HU Hin]]]]]];
        [contradiction | contradiction | eauto].
Qed.

(** ** The validation pass *)

Section ValidationPassFacts.

Variable URL_hostname : jsstring -> result jsstring.

(** Every message of the validators is a non-empty string. *)
Lemma validators_url_truthy (value e : jsstring) :
  validators_url URL_hostname value = Some e -> truthy e = true.
Proof.
  unfold validators_url. cbv zeta.
  destruct (negb (truthy (trim value))); [intros H; injection H as <-; reflexivity|].
  destruct (startsWith (lit "/") (trim value) || startsWith (lit "#") (trim value));
    [discriminate|].
  match goal with |- context [URL_hostname ?u] => destruct (URL_hostname u) as [h|ex] end;
    cbn [bind try_catch].
  - destruct (negb (truthy h) || negb (includesChar (code ".") h)); cbn [try_catch];
      intros H; [injection H as <-; reflexivity | discriminate H].
  - intros H. injection H as <-. reflexivity.
Qed.

Lemma getValidationError_truthy (p : Platform) (pc : PlatformConfig) (e : jsstring) :
  getValidationError URL_hostname p pc = Some e -> truthy e = true.
Proof.
  unfold getValidationError. cbv zeta.
  destruct p;
    [ unfold validators_messenger | unfold validators_whatsapp
    | unfold validators_telegram | unfold validators_phone
    | destruct (emailLinkType pc) as [[|]|];
      [ unfold validators_email | apply validators_url_truthy
      | apply validators_url_truthy ] ];
    cbv zeta;
    repeat match goal with
           | |- context [if ?b then _ else _] => destruct b
           end;
    intros H; try discriminate H; injection H as <-; reflexivity.
Qed.

Lemma getError_putError_same (k : Platform) (v : jsstring) (o : ErrorMap) :
  getError k (putError k v o) = Some v.
Proof.
  induction o as [|[k' v'] o IH]; simpl.
  - rewrite Platform_eqb_refl. reflexivity.
  - destruct (Platform_eqb k k') eqn:E; simpl; rewrite E; [reflexivity | exact IH].
Qed.

Lemma getError_putError_other (q k : Platform) (v : jsstring) (o : ErrorMap) :
  q <> k -> getError q (putError k v o) = getError q o.
Proof.
  intros Hne. induction o as [|[k' v'] o IH]; simpl.
  - apply Platform_eqb_neq in Hne. rewrite Hne. reflexivity.
  - destruct (Platform_eqb k k') eqn:E; simpl.
    + apply Platform_eqb_eq in E. subst k'.
      apply Platform_eqb_neq in Hne. rewrite Hne. reflexivity.
    + rewrite IH. reflexivity.
Qed.

Lemma expected_error_get (config : WidgetConfig) (p : Platform) (pc : PlatformConfig) :
  get p (platforms config) = Some pc ->
  expected_error URL_hostname config p
  = if enabled pc then getValidationError URL_hostname p pc else None.
Proof. intros H. unfold expected_error. rewrite H. reflexivity. Qed.

(** The pass over a list of distinct platforms, none of them in the
    object yet: their entries afterwards are the validator's messages,
    the others are as they were. *)
Lemma collectErrors_entries (config : WidgetConfig) :
  (forall p, exists pc, get p (platforms config) = Some pc) ->
  forall (ps : list PlatformEntry) (acc : ErrorMap),
    NoDup (map id ps) ->
    (forall q, In q (map id ps) -> getError q acc = None) ->
    exists errs,
      collectErrors URL_hostname config ps acc = Ok errs
      /\ forall q, getError q errs
                   = if existsb (Platform_eqb q) (map id ps)
                     then expected_error URL_hostname config q
                     else getError q acc.
Proof.
  intros Hall. induction ps as [|p ps IH]; intros acc Hnd Hfresh.
  - exists acc. split; [reflexivity | intros q; reflexivity].
  - cbn [map] in Hnd, Hfresh. inversion Hnd as [|? ? Hnotin Hnd']; subst.
    destruct (Hall (id p)) as [pc Hpc].
    cbn [collectErrors]. unfold platformOf. rewrite Hpc. cbn [bind].
    set (acc' := if enabled pc then
                   match getValidationError URL_hostname (id p) pc with
                   | Some error =>
                       if truthy error then putError (id p) error acc else acc
                   | None => acc
                   end
                 else acc).
    assert (Hacc' : forall q,
               getError q acc'
               = if Platform_eqb q (id p)
                 then expected_error URL_hostname config q
                 else getError q acc).
    { intros q. destruct (Platform_eqb q (id p)) eqn:E.
      - apply Platform_eqb_eq in E. subst q.
        rewrite (expected_error_get config (id p) pc Hpc). subst acc'.
        destruct (enabled pc); [|apply Hfresh; left; reflexivity].
        destruct (getValidationError URL_hostname (id p) pc) as [e|] eqn:Hv;
          [|apply Hfresh; left; reflexivity].
        rewrite (getValidationError_truthy (id p) pc e Hv).
        apply getError_putError_same.
      - apply Platform_eqb_neq in E. subst acc'.
        destruct (enabled pc); [|reflexivity].
        destruct (getValidationError URL_hostname (id p) pc) as [e|]; [|reflexivity].
        destruct (truthy e); [|reflexivity].
        apply getError_putError_other. exact E. }
    destruct (IH acc' Hnd') as [errs [Herrs Hspec]].
    { intros q Hq. rewrite Hacc'.
      destruct (Platform_eqb q (id p)) eqn:E.
      - apply Platform_eqb_eq in E. subst q. contradiction.
      - apply Hfresh. right. exact Hq. }
    exists errs. split; [exact Herrs|].
    intros q. rewrite Hspec. cbn [map existsb]. rewrite Hacc'.
    destruct (existsb (Platform_eqb q) (map id ps)) eqn:Ex.
    + rewrite orb_true_r. reflexivity.
    + rewrite orb_false_r. reflexivity.
Qed.

End ValidationPassFacts.

(** X5.  On a configuration with an entry for each platform the
    validation pass returns, and the message it records under a platform
    is the validator's message for that platform when it is enabled and
    none when it is disabled: a disabled platform is never reported, and
    no message is recorded at all exactly when every enabled platform
    passes its validator. *)
Theorem validation_pass_reports_enabled_platforms :
  forall (URL_hostname : jsstring -> result jsstring) (config : WidgetConfig),
    typed (platforms config) ->
    exists errs,
      validationErrors URL_hostname config = Ok errs
      /\ (forall p, getError p errs = expected_error URL_hostname config p)
      /\ (forall p, is_enabled config p = false -> getError p errs = None)
      /\ ((forall p, getError p errs = None) <->
          (forall p pc, get p (platforms config) = Some pc -> enabled pc = true ->
                        getValidationError URL_hostname p pc = None)).
Proof.
  intros U c [_ Hall].
  assert (Hget : forall p, exists pc, get p (platforms c) = Some pc)
    by (intros p; apply get_In_keys, Hall).
  destruct (collectErrors_entries U c Hget PLATFORMS []) as [errs [Herrs Hspec]].
  { unfold PLATFORMS. simpl. repeat constructor; simpl; intuition discriminate. }
  { intros q _. reflexivity. }
  assert (Hexp : forall p, getError p errs = expected_error U c p).
  { intros p. rewrite Hspec. destruct p; reflexivity. }
  exists errs. split; [exact Herrs|]. split; [exact Hexp|]. split.
  - intros p Hdis. rewrite Hexp. unfold expected_error. unfold is_enabled in Hdis.
    destruct (get p (platforms c)) as [pc|]; [rewrite Hdis|]; reflexivity.
  - split.
    + intros Hnone p pc Hp Hen. specialize (Hnone p). rewrite Hexp in Hnone.
      rewrite (expected_error_get U c p pc Hp), Hen in Hnone. exact Hnone.
    + intros Hok p. rewrite Hexp. unfold expected_error.
      destruct (get p (platforms c)) as [pc|] eqn:Hp; [|reflexivity].
      destruct (enabled pc) eqn:Hen; [|reflexivity]. apply (Hok p pc Hp Hen).
Qed.

Lemma validation_pass_reports_enabled_platforms_witness :
  exists errs,
    validationErrors (fun _ => Throw TypeError) DEFAULT_with_bad_number = Ok errs
    /\ getError whatsapp errs
       = Some (lit "Please enter digits only, without `+` or spaces.")
    /\ getError messenger errs = None
    /\ getError phone errs = None
    /\ (forall p, getError p errs
                  = expected_error (fun _ => Throw TypeError) DEFAULT_with_bad_number p)
    /\ (forall p, is_enabled DEFAULT_with_bad_number p = false -> getError p errs = None)
    /\ ((forall p, getError p errs = None) <->
        (forall p pc, get p (platforms DEFAULT_with_bad_number) = Some pc ->
                      enabled pc = true ->
                      getValidationError (fun _ => Throw TypeError) p pc = None)).
Proof.
  destruct (validation_pass_reports_enabled_platforms (fun _ => Throw TypeError)
              DEFAULT_with_bad_number) as [errs [H1 [H2 [H3 H4]]]].
  - split.
    + unfold keys. simpl. repeat constructor; simpl; intuition discriminate.
    + intros p. unfold keys. simpl. destruct p; auto 6.
  - exists errs. split; [exact H1|].
    split; [exact (H2 whatsapp)|]. split; [exact (H2 messenger)|].
    split; [exact (H2 phone)|]. split; [exact H2|]. split; [exact H3 | exact H4].
Defined.

Lemma email_edit_result (prevConfig : WidgetConfig) (value : option EmailLinkType)
      (prev : PlatformConfig) :
  get email (platforms prevConfig) = Some prev ->
  exists next,
    handlePlatformFieldChange email (emailLinkType_is value) prevConfig = Some next
    /\ get email (platforms next)
       = Some (with_field (with_field prev (emailLinkType_is value)) (contactId_is []))
    /\ keys (platforms next) = keys (platforms prevConfig).
Proof.
  intros Hget. unfold handlePlatformFieldChange. rewrite Hget.
  cbn [Platform_eqb isEmailLinkType andb]. eexists. split; [reflexivity|].
  cbn [platforms with_platforms]. split; [apply get_set_same|].
  apply keys_set. apply get_In_keys. eauto.
Qed.

(** X6.  Switching the link type of an enabled e-mail platform clears the
    contact id, so the validation pass that follows always reports the
    e-mail platform: the address, or the URL, is required. *)
Theorem email_link_type_switch_is_reported :
  forall (URL_hostname : jsstring -> result jsstring) (prevConfig : WidgetConfig)
         (value : option EmailLinkType) (prev : PlatformConfig),
    typed (platforms prevConfig) ->
    get email (platforms prevConfig) = Some prev ->
    enabled prev = true ->
    exists next errs,
      handlePlatformFieldChange email (emailLinkType_is value) prevConfig = Some next
      /\ validationErrors URL_hostname next = Ok errs
      /\ getError email errs
         = Some (match value with
                 | Some mailto => lit "Email address is required."
                 | _ => lit "URL is required."
                 end).
Proof.
  intros U c v prev [Hnd Hall] Hget Hen.
  destruct (email_edit_result c v prev Hget) as [next [Hnext [Hentry Hkeys]]].
  assert (Htyped : typed (platforms next)) by (unfold typed; rewrite Hkeys; auto).
  assert (Hget' : forall p, exists pc, get p (platforms next) = Some pc)
    by (intros p; apply get_In_keys, Htyped).
  destruct (collectErrors_entries U next Hget' PLATFORMS []) as [errs [Herrs Hspec]].
  { unfold PLATFORMS. simpl. repeat constructor; simpl; intuition discriminate. }
  { intros q _. reflexivity. }
  exists next, errs. split; [exact Hnext|]. split; [exact Herrs|].
  rewrite Hspec. cbn [PLATFORMS map id existsb Platform_eqb orb].
  rewrite (expected_error_get U next email _ Hentry).
  cbn [with_field enabled]. rewrite Hen.
  destruct v as [[|]|]; reflexivity.
Qed.

Lemma typed_canonical (o : PlatformMap) : keys o = canonical -> typed o.
Proof.
  intros H. unfold typed. rewrite H. split.
  - unfold canonical. repeat constructor; simpl; intuition discriminate.
  - intros p. unfold canonical. simpl. destruct p; auto 6.
Qed.

Lemma email_link_type_switch_is_reported_witness :
  exists next errs,
    handlePlatformFieldChange email (emailLinkType_is (Some url)) DEFAULT_with_email
    = Some next
    /\ validationErrors (fun _ => Throw TypeError) next = Ok errs
    /\ getError email errs = Some (lit "URL is required.").
Proof.
  refine (email_link_type_switch_is_reported (fun _ => Throw TypeError)
            DEFAULT_with_email (Some url) _ _ eq_refl eq_refl).
  apply typed_canonical. reflexivity.
Defined.

(** ** Validation and links *)

Section PaddingFacts.

Lemma dropWhile_app (p : N -> bool) (a b : jsstring) :
  dropWhile p (a ++ b)
  = if forallb p a then dropWhile p b else dropWhile p a ++ b.
Proof.
  induction a as [|c a IH]; simpl; [reflexivity|].
  destruct (p c); simpl; [exact IH | reflexivity].
Qed.

Lemma trim_pad_end (s b : jsstring) :
  forallb isWhiteSpace b = true -> trim (s ++ b) = trim s.
Proof.
  intros Hb. unfold trim, trimEnd, trimStart. rewrite dropWhile_app.
  destruct (forallb isWhiteSpace s) eqn:Hs.
  - rewrite (proj2 (dropWhile_nil_iff _ b) Hb), (proj2 (dropWhile_nil_iff _ s) Hs).
    reflexivity.
  - rewrite rev_app_distr, dropWhile_app, forallb_rev, Hb. reflexivity.
Qed.

(** White space around a string does not change what [trim] gives. *)
Lemma trim_pad (a s b : jsstring) :
  forallb isWhiteSpace a = true -> forallb isWhiteSpace b = true ->
  trim (a ++ s ++ b) = trim s.
Proof.
  intros Ha Hb. rewrite <- (trim_pad_end s b Hb).
  unfold trim, trimStart. rewrite dropWhile_app, Ha. reflexivity.
Qed.

Lemma filter_white_space (a : jsstring) :
  forallb isWhiteSpace a = true -> filter notWhiteSpace a = [].
Proof.
  induction a as [|c a IH]; simpl; [reflexivity|]. intros H.
  apply andb_true_iff in H. destruct H as [Hc Ha].
  unfold notWhiteSpace at 1. rewrite Hc. simpl. apply IH, Ha.
Qed.

(** Removing the white space of a string or of its trimmed form gives
    the same. *)
Lemma filter_trim (s : jsstring) :
  filter notWhiteSpace s = filter notWhiteSpace (trim s).
Proof.
  destruct (trim_decompose s) as [pre [suf [E [Hpre Hsuf]]]].
  rewrite E at 1. rewrite !filter_app.
  rewrite (filter_white_space pre Hpre), (filter_white_space suf Hsuf), app_nil_r.
  reflexivity.
Qed.

Lemma isWhiteSpace_not_graphic (c : N) :
  isWhiteSpace c = true -> (c < 33 \/ 160 <= c)%N.
Proof.
  unfold isWhiteSpace, isLineTerminator. rewrite !orb_true_iff, !N.eqb_eq, between_iff.
  lia.
Qed.

Lemma isDigit_not_white_space (c : N) : isDigit c = true -> isWhiteSpace c = false.
Proof.
  intros H. apply isDigit_iff in H. change (code "0") with 48%N in H.
  change (code "9") with 57%N in H.
  destruct (isWhiteSpace c) eqn:E; [|reflexivity].
  apply isWhiteSpace_not_graphic in E. lia.
Qed.

Lemma filter_digits (run : jsstring) :
  forallb isDigit run = true -> filter notWhiteSpace run = run.
Proof.
  induction run as [|c run IH]; simpl; [reflexivity|]. intros H.
  apply andb_true_iff in H. destruct H as [Hc Hrun].
  unfold notWhiteSpace at 1. rewrite (isDigit_not_white_space c Hc). simpl.
  rewrite IH by exact Hrun. reflexivity.
Qed.

End PaddingFacts.

Lemma phone_link_payload (pc : PlatformConfig) :
  getPlatformLink phone pc = Ok (lit "tel:" ++ filter notWhiteSpace (contactId pc)).
Proof.
  unfold getPlatformLink. cbv zeta.
  rewrite (proj1 (removeSpaceRuns_filter (contactId pc))). reflexivity.
Qed.

(** X7.  When the phone validator accepts a contact id, the phone link is
    [tel:] followed by digits and the characters ( ) + - only, with no
    white space, and it still holds seven digits in a row. *)
Theorem accepted_phone_link_is_dialable :
  forall pConfig : PlatformConfig,
    validators_phone (contactId pConfig) = None ->
    exists payload before run after,
      getPlatformLink phone pConfig = Ok (lit "tel:" ++ payload)
      /\ (forall c, In c payload ->
            isDigit c = true \/ c = code "(" \/ c = code ")"
            \/ c = code "+" \/ c = code "-")
      /\ payload = before ++ run ++ after
      /\ List.length run = 7 /\ forallb isDigit run = true.
Proof.
  intros pc Hv. apply validators_phone_None in Hv.
  destruct Hv as [_ [Hall [before [run [after [E [H7 [Hrun _]]]]]]]].
  exists (filter notWhiteSpace (contactId pc)),
    (filter notWhiteSpace before), run, (filter notWhiteSpace after).
  split; [apply phone_link_payload|].
  rewrite filter_trim. split.
  - intros c Hc. apply filter_In in Hc. destruct Hc as [Hin Hnw].
    rewrite forallb_forall in Hall. specialize (Hall c Hin).
    unfold notWhiteSpace in Hnw. apply negb_true_iff in Hnw.
    unfold Patterns.isPhoneChar in Hall. rewrite Hnw in Hall.
    rewrite !orb_true_iff, !N.eqb_eq in Hall. intuition congruence.
  - rewrite E, !filter_app, (filter_digits run Hrun). auto.
Qed.

Lemma accepted_phone_link_is_dialable_witness :
  exists payload before run after,
    getPlatformLink phone (plain true (lit " +1 555 1234567 "))
    = Ok (lit "tel:" ++ payload)
    /\ (forall c, In c payload ->
          isDigit c = true \/ c = code "(" \/ c = code ")"
          \/ c = code "+" \/ c = code "-")
    /\ payload = before ++ run ++ after
    /\ List.length run = 7 /\ forallb isDigit run = true.
Proof.
  apply (accepted_phone_link_is_dialable (plain true (lit " +1 555 1234567 "))).
  reflexivity.
Defined.

(** X8.  Every validator looks at the trimmed contact id only: white
    space before and after the contact id never changes the verdict.  The
    links are built from the contact id as it is, so for Messenger and
    Telegram that white space is part of the link. *)
Theorem validation_ignores_outer_white_space :
  forall (URL_hostname : jsstring -> result jsstring) (p : Platform)
         (pConfig : PlatformConfig) (before after : jsstring),
    forallb isWhiteSpace before = true ->
    forallb isWhiteSpace after = true ->
    getValidationError URL_hostname p
      (with_field pConfig (contactId_is (before ++ contactId pConfig ++ after)))
    = getValidationError URL_hostname p pConfig
    /\ (p = messenger \/ p = telegram ->
        getPlatformLink p
          (with_field pConfig (contactId_is (before ++ contactId pConfig ++ after)))
        = Ok (chat_prefix p ++ before ++ contactId pConfig ++ after)).
Proof.
  intros U p pc a b Ha Hb. split.
  - unfold getValidationError. cbv zeta.
    cbn [with_field contactId emailLinkType]. rewrite !or_else_nil.
    pose proof (trim_pad a (contactId pc) b Ha Hb) as Ht.
    destruct p;
      [ unfold validators_messenger | unfold validators_whatsapp
      | unfold validators_telegram | unfold validators_phone
      | destruct (emailLinkType pc) as [[|]|];
        [ unfold validators_email | unfold validators_url | unfold validators_url ] ];
      cbv zeta; rewrite Ht; reflexivity.
  - intros [-> | ->]; reflexivity.
Qed.

Lemma validation_ignores_outer_white_space_witness :
  getValidationError (fun _ => Throw TypeError) messenger
    (with_field (plain true (lit "Meta")) (contactId_is (lit " " ++ lit "Meta" ++ lit "  ")))
  = getValidationError (fun _ => Throw TypeError) messenger (plain true (lit "Meta"))
  /\ (messenger = messenger \/ messenger = telegram ->
      getPlatformLink messenger
        (with_field (plain true (lit "Meta"))
           (contactId_is (lit " " ++ lit "Meta" ++ lit "  ")))
      = Ok (chat_prefix messenger ++ lit " " ++ lit "Meta" ++ lit "  ")).
Proof.
  exact (validation_ignores_outer_white_space (fun _ => Throw TypeError) messenger
           (plain true (lit "Meta")) (lit " ") (lit "  ") eq_refl eq_refl).
Defined.

(** ** The encoded message *)

Section EscapeFacts.

Lemma hexDigit_safe (d : N) : (d < 16)%N -> isUriSafe (hexDigit d) = true.
Proof.
  intros Hd. unfold isUriSafe, isUnescaped, hexDigit.
  destruct (d <? 10)%N eqn:E.
  - apply N.ltb_lt in E.
    assert (B : between 48 57 (48 + d) = true) by (apply between_iff; lia).
    rewrite B, !orb_true_r. reflexivity.
  - apply N.ltb_ge in E.
    assert (B : between 65 90 (55 + d) = true) by (apply between_iff; lia).
    rewrite B, !orb_true_r. reflexivity.
Qed.

Lemma percent_safe (octet : N) :
  (octet < 256)%N -> forallb isUriSafe (percent octet) = true.
Proof.
  intros Ho. unfold percent. cbn [forallb].
  rewrite (hexDigit_safe (octet / 16)) by (apply N.Div0.div_lt_upper_bound; lia).
  rewrite (hexDigit_safe (octet mod 16)) by (apply N.mod_lt; lia).
  reflexivity.
Qed.

Lemma utf8_octets (cp : N) :
  (cp < 0x110000)%N -> forall o, In o (utf8 cp) -> (o < 256)%N.
Proof.
  intros Hcp o. unfold utf8.
  pose proof (N.mod_lt cp 64 ltac:(lia)) as M1.
  pose proof (N.mod_lt (cp / 64) 64 ltac:(lia)) as M2.
  pose proof (N.mod_lt (cp / 4096) 64 ltac:(lia)) as M3.
  destruct (cp <? 0x80)%N eqn:E1; [apply N.ltb_lt in E1 | apply N.ltb_ge in E1].
  { cbn [In]. intros [<-|[]]. lia. }
  destruct (cp <? 0x800)%N eqn:E2; [apply N.ltb_lt in E2 | apply N.ltb_ge in E2].
  { assert (cp / 64 < 32)%N by (apply N.Div0.div_lt_upper_bound; lia).
    cbn [In]. intros [<-|[<-|[]]]; lia. }
  destruct (cp <? 0x10000)%N eqn:E3; [apply N.ltb_lt in E3 | apply N.ltb_ge in E3].
  { assert (cp / 4096 < 16)%N by (apply N.Div0.div_lt_upper_bound; lia).
    cbn [In]. intros [<-|[<-|[<-|[]]]]; lia. }
  assert (cp / 262144 < 5)%N by (apply N.Div0.div_lt_upper_bound; lia).
  cbn [In]. intros [<-|[<-|[<-|[<-|[]]]]]; lia.
Qed.

Lemma escape_safe (cp : N) :
  (cp < 0x110000)%N -> forallb isUriSafe (escape cp) = true.
Proof.
  intros Hcp. unfold escape.
  pose proof (utf8_octets cp Hcp) as Ho.
  induction (utf8 cp) as [|o os IH]; [reflexivity|].
  cbn [flat_map]. rewrite forallb_app.
  rewrite percent_safe by (apply Ho; left; reflexivity).
  apply IH. intros o' Ho'. apply Ho. right. exact Ho'.
Qed.

Lemma codePoint_bound (lead trail : N) :
  isHighSurrogate lead = true -> isLowSurrogate trail = true ->
  (codePoint lead trail < 0x110000)%N.
Proof.
  unfold isHighSurrogate, isLowSurrogate, codePoint. rewrite !between_iff. lia.
Qed.

(** What [encodeURIComponent] returns is made of the unreserved
    characters, the percent sign and hexadecimal digits. *)
Lemma encodeURIComponent_safe (s : jsstring) :
  forallb isCodeUnit s = true ->
  forall e, encodeURIComponent s = Ok e -> forallb isUriSafe e = true.
Proof.
  remember (List.length s) as n eqn:Hn.
  revert s Hn. induction n as [n IH] using lt_wf_ind. intros s Hn Hu e.
  destruct s as [|c rest]; [intros H; injection H as <-; reflexivity|].
  cbn [forallb] in Hu. apply andb_true_iff in Hu. destruct Hu as [Hc Hrest].
  unfold isCodeUnit in Hc. apply N.ltb_lt in Hc.
  cbn [encodeURIComponent].
  assert (IHrest : forall e', encodeURIComponent rest = Ok e' ->
                              forallb isUriSafe e' = true).
  { apply (IH (List.length rest)); [subst n; simpl; lia | reflexivity | exact Hrest]. }
  destruct (isUnescaped c) eqn:Hun.
  - destruct (encodeURIComponent rest) as [r|ex]; cbn [bind]; [|discriminate].
    intros H. injection H as <-. cbn [forallb].
    unfold isUriSafe at 1. rewrite Hun. simpl. apply IHrest. reflexivity.
  - destruct (isHighSurrogate c) eqn:Hh.
    + destruct rest as [|d rest']; [discriminate|].
      destruct (isLowSurrogate d) eqn:Hl; [|discriminate].
      cbn [forallb] in Hrest. apply andb_true_iff in Hrest. destruct Hrest as [_ Hrest'].
      assert (IH' : forall e', encodeURIComponent rest' = Ok e' ->
                               forallb isUriSafe e' = true).
      { apply (IH (List.length rest')); [subst n; simpl; lia | reflexivity | exact Hrest']. }
      destruct (encodeURIComponent rest') as [r|ex]; cbn [bind]; [|discriminate].
      intros H. injection H as <-. rewrite forallb_app.
      rewrite (escape_safe _ (codePoint_bound c d Hh Hl)). apply IH'. reflexivity.
    + destruct (isLowSurrogate c); [discriminate|].
      destruct (encodeURIComponent rest) as [r|ex]; cbn [bind]; [|discriminate].
      intros H. injection H as <-. rewrite forallb_app.
      rewrite escape_safe by lia. apply IHrest. reflexivity.
Qed.

End EscapeFacts.

(** X9.  The pre-filled message reaches the WhatsApp link encoded: what
    follows [?text=] is made of letters, digits, the marks - _ . ! ~ * ' ( )
    and percent signs only, so it holds no white space, quote, angle
    bracket or ampersand, whatever the message. *)
Theorem whatsapp_message_is_escaped :
  forall (pConfig : PlatformConfig) (message link : jsstring),
    predefinedMessage pConfig = Some message ->
    message <> [] ->
    forallb isCodeUnit message = true ->
    getPlatformLink whatsapp pConfig = Ok link ->
    exists encodedMessage,
      link = lit "https://wa.me/" ++ contactId pConfig ++ lit "?text=" ++ encodedMessage
      /\ forallb isUriSafe encodedMessage = true
      /\ (forall c, In c encodedMessage ->
            isWhiteSpace c = false /\ c <> 34%N /\ c <> code "<" /\ c <> code ">"
            /\ c <> code "&").
Proof.
  intros pc msg link Hm Hne Hu Hlink.
  unfold getPlatformLink in Hlink. cbv zeta in Hlink. rewrite Hm in Hlink.
  destruct msg as [|u msg]; [congruence|]. cbn [truthy] in Hlink.
  destruct (encodeURIComponent (u :: msg)) as [e|ex] eqn:He; cbn [bind] in Hlink;
    [|discriminate].
  injection Hlink as <-. exists e. split; [reflexivity|].
  pose proof (encodeURIComponent_safe (u :: msg) Hu e He) as Hsafe.
  split; [exact Hsafe|].
  intros c Hc. rewrite forallb_forall in Hsafe. specialize (Hsafe c Hc).
  assert (Hr : (33 <= c <= 126)%N /\ c <> 34%N /\ c <> 60%N /\ c <> 62%N /\ c <> 38%N).
  { unfold isUriSafe, isUnescaped in Hsafe.
    rewrite !orb_true_iff, !between_iff, !N.eqb_eq in Hsafe.
    repeat match type of Hsafe with
           | context [code ?a] =>
               let v := eval vm_compute in (code a) in change (code a) with v in Hsafe
           end.
    lia. }
  destruct Hr as [Hr [H1 [H2 [H3 H4]]]].
  split; [|auto].
  destruct (isWhiteSpace c) eqn:E; [|reflexivity].
  apply isWhiteSpace_not_graphic in E. lia.
Qed.

Lemma whatsapp_message_is_escaped_witness :
  exists encodedMessage,
    lit "https://wa.me/15551234567?text=%3Cb%3E%22Hi%22%20%26%20bye"
    = lit "https://wa.me/" ++ lit "15551234567" ++ lit "?text=" ++ encodedMessage
    /\ forallb isUriSafe encodedMessage = true
    /\ (forall c, In c encodedMessage ->
          isWhiteSpace c = false /\ c <> 34%N /\ c <> code "<" /\ c <> code ">"
          /\ c <> code "&").
Proof.
  refine (whatsapp_message_is_escaped
            (whatsapp_with (lit "15551234567") (Some (lit "<b>`Hi` & bye")))
            (lit "<b>`Hi` & bye")
            (lit "https://wa.me/15551234567?text=%3Cb%3E%22Hi%22%20%26%20bye")
            eq_refl _ eq_refl eq_refl).
  discriminate.
Defined.

(** ** Fields a platform does not use, and empty overrides *)

(** X10.  The form offers a pre-filled message for WhatsApp only, and the
    generator agrees: the link of every other platform is the same
    whatever the pre-filled message of its entry. *)
Theorem message_matters_for_whatsapp_only :
  forall p : Platform,
    (supportsPrefilledMessage (PLATFORM_DETAILS p) = true <-> p = whatsapp)
    /\ (forall (pConfig : PlatformConfig) (message : option jsstring),
           supportsPrefilledMessage (PLATFORM_DETAILS p) = false ->
           getPlatformLink p (with_message pConfig message) = getPlatformLink p pConfig).
Proof.
  intros p. split.
  - destruct p; simpl; split; congruence.
  - intros pc msg Hs. destruct p; try discriminate Hs; reflexivity.
Qed.

Lemma message_matters_for_whatsapp_only_witness :
  getPlatformLink telegram (with_message (plain true (lit "username")) (Some (lit "Hi")))
  = getPlatformLink telegram (plain true (lit "username")).
Proof.
  exact (proj2 (message_matters_for_whatsapp_only telegram)
           (plain true (lit "username")) (Some (lit "Hi")) eq_refl).
Defined.

(** X11.  An empty colour or icon override counts as no override: the
    entry of the platform is generated with the default brand colour and
    the built-in icon, as it is when the field is absent.  That is what
    the reset buttons of the form rely on. *)
Theorem empty_override_is_default :
  forall (getIconSvgString : Platform -> jsstring -> jsstring)
         (config : WidgetConfig) (p : PlatformEntry) (pc : PlatformConfig),
    get (id p) (platforms config) = Some pc ->
    platform_item getIconSvgString
      (with_platforms config
         (set (id p) (with_field (with_field pc (color_is (Some [])))
                        (customIconSvg_is (Some [])))
            (platforms config))) p
    = platform_item getIconSvgString
        (with_platforms config
           (set (id p) (with_field (with_field pc (color_is None))
                          (customIconSvg_is None))
              (platforms config))) p
    /\ forall link,
        getPlatformLink (id p) pc = Ok link ->
        platform_item getIconSvgString
          (with_platforms config
             (set (id p) (with_field (with_field pc (color_is (Some [])))
                            (customIconSvg_is (Some [])))
                (platforms config))) p
        = Ok (item_markup p link (defaultColor (PLATFORM_DETAILS (id p)))
                (getIconSvgString (id p) (lit "#FFFFFF"))).
Proof.
  intros icons c p pc Hget.
  assert (E : forall v,
             platform_item icons (with_platforms c (set (id p) v (platforms c))) p
             = (link <- getPlatformLink (id p) v ;;
                Ok (item_markup p link
                      (opt_or_else (color v) (defaultColor (PLATFORM_DETAILS (id p))))
                      (opt_or_else (customIconSvg v) (icons (id p) (lit "#FFFFFF")))))).
  { intros v. unfold platform_item, platformOf. cbn [platforms with_platforms].
    rewrite get_set_same. reflexivity. }
  rewrite !E. split; [reflexivity|].
  intros link Hlink.
  replace (getPlatformLink (id p)
             (with_field (with_field pc (color_is (Some []))) (customIconSvg_is (Some []))))
    with (getPlatformLink (id p) pc) by reflexivity.
  rewrite Hlink. reflexivity.
Qed.

Lemma empty_override_is_default_witness :
  platform_item plain_icon
    (with_platforms DEFAULT_CONFIG
       (set telegram (with_field (with_field (plain true (lit "mychannel"))
                                    (color_is (Some []))) (customIconSvg_is (Some [])))
          (platforms DEFAULT_CONFIG)))
    {| id := telegram; name := lit "Telegram" |}
  = platform_item plain_icon
      (with_platforms DEFAULT_CONFIG
         (set telegram (with_field (with_field (plain true (lit "mychannel"))
                                      (color_is None)) (customIconSvg_is None))
            (platforms DEFAULT_CONFIG)))
      {| id := telegram; name := lit "Telegram" |}.
Proof.
  exact (proj1 (empty_override_is_default plain_icon DEFAULT_CONFIG
                  {| id := telegram; name := lit "Telegram" |}
                  (plain true (lit "mychannel")) eq_refl)).
Defined.

(** ** Edits of the form *)

Section EditFacts.

Lemma set_get_same (k : Platform) (v : PlatformConfig) (o : PlatformMap) :
  get k o = Some v -> set k v o = o.
Proof.
  induction o as [|[k' v'] o IH]; simpl; [discriminate|].
  destruct (Platform_eqb k k') eqn:E.
  - intros H. injection H as ->. reflexivity.
  - intros H. rewrite IH by exact H. reflexivity.
Qed.

Lemma set_set_same (k : Platform) (v w : PlatformConfig) (o : PlatformMap) :
  set k w (set k v o) = set k w o.
Proof.
  induction o as [|[k' v'] o IH]; simpl.
  - rewrite Platform_eqb_refl. reflexivity.
  - destruct (Platform_eqb k k') eqn:E; simpl; rewrite E; [reflexivity|].
    rewrite IH. reflexivity.
Qed.

Lemma set_set_other (k1 k2 : Platform) (v1 v2 : PlatformConfig) (o : PlatformMap) :
  k1 <> k2 -> In k1 (keys o) -> In k2 (keys o) ->
  set k1 v1 (set k2 v2 o) = set k2 v2 (set k1 v1 o).
Proof.
  intros Hne. induction o as [|[k v] o IH]; simpl; [tauto|].
  intros H1 H2.
  destruct (Platform_eqb k2 k) eqn:E2, (Platform_eqb k1 k) eqn:E1; simpl;
    rewrite ?E1, ?E2; try reflexivity.
  - apply Platform_eqb_eq in E1, E2. congruence.
  - apply Platform_eqb_neq in E1, E2. f_equal. apply IH.
    + destruct H1 as [H1|H1]; [congruence | exact H1].
    + destruct H2 as [H2|H2]; [congruence | exact H2].
Qed.

Lemma with_field_enabled_twice (pc : PlatformConfig) :
  with_field (with_field pc (enabled_is (negb (enabled pc))))
    (enabled_is (negb (negb (enabled pc)))) = pc.
Proof. destruct pc as [e c m t i col]. simpl. rewrite negb_involutive. reflexivity. Qed.

Lemma with_platforms_same (c : WidgetConfig) : with_platforms c (platforms c) = c.
Proof. destruct c. reflexivity. Qed.

Lemma is_enabled_set (c : WidgetConfig) (k q : Platform) (v : PlatformConfig) :
  is_enabled (with_platforms c (set k v (platforms c))) q
  = if Platform_eqb q k then enabled v else is_enabled c q.
Proof.
  unfold is_enabled. cbn [platforms with_platforms].
  destruct (Platform_eqb q k) eqn:E.
  - apply Platform_eqb_eq in E. subst q. rewrite get_set_same. reflexivity.
  - apply Platform_eqb_neq in E. rewrite get_set_other by exact E. reflexivity.
Qed.

(** An edit of a configuration whose keys are those of [PLATFORMS], in
    their order, returns a configuration with the same keys. *)
Lemma apply_edit_keys (e : Edit) (c : WidgetConfig) :
  keys (platforms c) = canonical ->
  exists c', apply_edit e c = Some c' /\ keys (platforms c') = canonical.
Proof.
  intros Hk.
  assert (Hin : forall p, In p (keys (platforms c)))
    by (intros p; rewrite Hk; unfold canonical; simpl; destruct p; auto 6).
  destruct e as [p | p fv | fv]; cbn [apply_edit].
  - destruct (proj1 (get_In_keys p (platforms c)) (Hin p)) as [pc Hpc].
    unfold handlePlatformToggle, platformOf. rewrite Hpc. cbn [bind].
    eexists. split; [reflexivity|]. cbn [platforms with_platforms].
    rewrite keys_set by apply Hin. exact Hk.
  - destruct (proj1 (get_In_keys p (platforms c)) (Hin p)) as [pc Hpc].
    unfold handlePlatformFieldChange. rewrite Hpc.
    eexists. split; [reflexivity|]. cbn [platforms with_platforms].
    rewrite keys_set by apply Hin. exact Hk.
  - eexists. split; [reflexivity|]. exact Hk.
Qed.

End EditFacts.

(** X12.  Toggling a platform flips its [enabled] flag and nothing else:
    the entry keeps its contact id, message, link type, icon and colour,
    the other entries, the order of the keys and the nine top-level
    fields stay, and toggling again gives back the configuration it
    started from. *)
Theorem toggle_flips_one_flag :
  forall (platformId : Platform) (prevConfig : WidgetConfig) (prev : PlatformConfig),
    get platformId (platforms prevConfig) = Some prev ->
    exists next,
      handlePlatformToggle platformId prevConfig = Ok next
      /\ get platformId (platforms next)
         = Some {| enabled := negb (enabled prev);
                   contactId := contactId prev;
                   predefinedMessage := predefinedMessage prev;
                   emailLinkType := emailLinkType prev;
                   customIconSvg := customIconSvg prev;
                   color := color prev |}
      /\ (forall q, is_enabled next q
                    = if Platform_eqb q platformId then negb (enabled prev)
                      else is_enabled prevConfig q)
      /\ (forall q, q <> platformId ->
                    get q (platforms next) = get q (platforms prevConfig))
      /\ keys (platforms next) = keys (platforms prevConfig)
      /\ handlePlatformToggle platformId next = Ok prevConfig
      /\ headerText next = headerText prevConfig
      /\ headerBgColor next = headerBgColor prevConfig
      /\ headerTextColor next = headerTextColor prevConfig
      /\ mainButtonColor next = mainButtonColor prevConfig
      /\ mainIconColor next = mainIconColor prevConfig
      /\ position next = position prevConfig
      /\ buttonAnimation next = buttonAnimation prevConfig
      /\ widgetShape next = widgetShape prevConfig
      /\ menuSpacing next = menuSpacing prevConfig.
Proof.
  intros p c pc Hget.
  unfold handlePlatformToggle at 1. unfold platformOf. rewrite Hget. cbn [bind].
  eexists. split; [reflexivity|].
  split; [cbn [platforms with_platforms with_field]; apply get_set_same|].
  split; [intros q; rewrite is_enabled_set; reflexivity|].
  split; [intros q Hq; cbn [platforms with_platforms]; apply get_set_other, Hq|].
  split; [cbn [platforms with_platforms]; apply keys_set, get_In_keys; eauto|].
  split; [|repeat split].
  unfold handlePlatformToggle, platformOf. cbn [platforms with_platforms].
  rewrite get_set_same. cbn [bind].
  replace (enabled (with_field pc (enabled_is (negb (enabled pc)))))
    with (negb (enabled pc)) by (destruct pc; reflexivity).
  rewrite with_field_enabled_twice, set_set_same, (set_get_same _ _ _ Hget).
  f_equal. destruct c. reflexivity.
Qed.

Lemma toggle_flips_one_flag_witness :
  exists next,
    handlePlatformToggle phone DEFAULT_CONFIG = Ok next
    /\ get phone (platforms next)
       = Some {| enabled := true; contactId := lit "15551234567";
                 predefinedMessage := None; emailLinkType := None;
                 customIconSvg := None; color := None |}
    /\ (forall q, is_enabled next q
                  = if Platform_eqb q phone then negb false
                    else is_enabled DEFAULT_CONFIG q)
    /\ (forall q, q <> phone ->
                  get q (platforms next) = get q (platforms DEFAULT_CONFIG))
    /\ keys (platforms next) = keys (platforms DEFAULT_CONFIG)
    /\ handlePlatformToggle phone next = Ok DEFAULT_CONFIG
    /\ headerText next = headerText DEFAULT_CONFIG
    /\ headerBgColor next = headerBgColor DEFAULT_CONFIG
    /\ headerTextColor next = headerTextColor DEFAULT_CONFIG
    /\ mainButtonColor next = mainButtonColor DEFAULT_CONFIG
    /\ mainIconColor next = mainIconColor DEFAULT_CONFIG
    /\ position next = position DEFAULT_CONFIG
    /\ buttonAnimation next = buttonAnimation DEFAULT_CONFIG
    /\ widgetShape next = widgetShape DEFAULT_CONFIG
    /\ menuSpacing next = menuSpacing DEFAULT_CONFIG.
Proof.
  exact (toggle_flips_one_flag phone DEFAULT_CONFIG
           (plain false (lit "15551234567")) eq_refl).
Defined.

(** X13.  On a configuration that has an entry for each of two different
    platforms, edits of their fields commute: both orders return, and
    they return the same configuration, the edit of the e-mail link type
    that clears the contact id included. *)
Theorem edits_of_different_platforms_commute :
  forall (p1 p2 : Platform) (fv1 fv2 : FieldValue) (config : WidgetConfig)
         (pc1 pc2 : PlatformConfig),
    p1 <> p2 ->
    get p1 (platforms config) = Some pc1 ->
    get p2 (platforms config) = Some pc2 ->
    exists c1 c2 next,
      handlePlatformFieldChange p1 fv1 config = Some c1
      /\ handlePlatformFieldChange p2 fv2 config = Some c2
      /\ handlePlatformFieldChange p2 fv2 c1 = Some next
      /\ handlePlatformFieldChange p1 fv1 c2 = Some next
      /\ keys (platforms next) = keys (platforms config).
Proof.
  intros p1 p2 fv1 fv2 c pc1 pc2 Hne H1 H2.
  unfold handlePlatformFieldChange. rewrite H1, H2.
  eexists. eexists. eexists.
  split; [reflexivity|]. split; [reflexivity|].
  cbn [platforms with_platforms].
  rewrite !get_set_other by congruence. rewrite H1, H2.
  split; [reflexivity|]. split.
  - f_equal. unfold with_platforms.
    cbn [platforms headerText headerBgColor headerTextColor
         mainButtonColor mainIconColor position buttonAnimation widgetShape menuSpacing].
    f_equal. apply set_set_other; [congruence | apply get_In_keys; eauto ..].
  - cbn [platforms with_platforms].
    rewrite keys_set.
    + apply keys_set. apply get_In_keys. eauto.
    + rewrite keys_set by (apply get_In_keys; eauto). apply get_In_keys. eauto.
Qed.

Lemma edits_of_different_platforms_commute_witness :
  exists c1 c2 next,
    handlePlatformFieldChange phone (contactId_is (lit "5551234567")) DEFAULT_CONFIG
    = Some c1
    /\ handlePlatformFieldChange email (emailLinkType_is (Some url)) DEFAULT_CONFIG
       = Some c2
    /\ handlePlatformFieldChange email (emailLinkType_is (Some url)) c1 = Some next
    /\ handlePlatformFieldChange phone (contactId_is (lit "5551234567")) c2 = Some next
    /\ keys (platforms next) = keys (platforms DEFAULT_CONFIG).
Proof.
  refine (edits_of_different_platforms_commute phone email
            (contactId_is (lit "5551234567")) (emailLinkType_is (Some url)) DEFAULT_CONFIG
            (plain false (lit "15551234567"))
            {| enabled := false; contactId := lit "hello@example.com";
               predefinedMessage := None; emailLinkType := Some mailto;
               customIconSvg := None; color := None |}
            _ eq_refl eq_refl).
  discriminate.
Defined.

(** ** Sessions *)

Section SessionFacts.

Variable getIconSvgString : Platform -> jsstring -> jsstring.

Lemma encodeURIComponent_throws (s : jsstring) :
  forall e, encodeURIComponent s = Throw e -> e = URIError.
Proof.
  remember (List.length s) as n eqn:Hn.
  revert s Hn. induction n as [n IH] using lt_wf_ind. intros s Hn e.
  destruct s as [|c rest]; [discriminate|]. cbn [encodeURIComponent].
  assert (IHrest : forall e', encodeURIComponent rest = Throw e' -> e' = URIError)
    by (apply (IH (List.length rest)); [subst n; simpl; lia | reflexivity]).
  destruct (isUnescaped c).
  - destruct (encodeURIComponent rest) as [r|ex]; cbn [bind]; [discriminate|].
    intros H. injection H as <-. apply IHrest. reflexivity.
  - destruct (isHighSurrogate c).
    + destruct rest as [|d rest']; [intros H; injection H as <-; reflexivity|].
      destruct (isLowSurrogate d); [|intros H; injection H as <-; reflexivity].
      assert (IH' : forall e', encodeURIComponent rest' = Throw e' -> e' = URIError)
        by (apply (IH (List.length rest')); [subst n; simpl; lia | reflexivity]).
      destruct (encodeURIComponent rest') as [r|ex]; cbn [bind]; [discriminate|].
      intros H. injection H as <-. apply IH'. reflexivity.
    + destruct (isLowSurrogate c); [intros H; injection H as <-; reflexivity|].
      destruct (encodeURIComponent rest) as [r|ex]; cbn [bind]; [discriminate|].
      intros H. injection H as <-. apply IHrest. reflexivity.
Qed.

Lemma getPlatformLink_throws (p : Platform) (pc : PlatformConfig) (e : exn) :
  getPlatformLink p pc = Throw e -> e = URIError.
Proof.
  unfold getPlatformLink. cbv zeta. destruct p; try discriminate.
  - destruct (predefinedMessage pc) as [msg|]; [|discriminate].
    destruct (truthy msg); [|discriminate].
    destruct (encodeURIComponent msg) as [r|ex] eqn:E; cbn [bind]; [discriminate|].
    intros H. injection H as <-. apply (encodeURIComponent_throws msg). exact E.
  - destruct (emailLinkType pc) as [[|]|]; discriminate.
Qed.

Lemma mapM_throws {A B} (f : A -> result B) (l : list A) (e0 : exn) :
  (forall x e, f x = Throw e -> e = e0) ->
  forall e, mapM f l = Throw e -> e = e0.
Proof.
  intros Hf. induction l as [|x l IH]; intros e; simpl; [discriminate|].
  destruct (f x) as [y|ex] eqn:Hx; cbn [bind].
  - destruct (mapM f l) as [ys|ex]; cbn [bind]; [discriminate|].
    intros H. injection H as <-. apply IH. reflexivity.
  - intros H. injection H as <-. apply (Hf x). exact Hx.
Qed.

(** With an entry for each platform, the only exception the generator can
    throw is the URIError of [encodeURIComponent]. *)
Lemma generateWidgetCode_throws (config : WidgetConfig) (e : exn) :
  typed (platforms config) ->
  generateWidgetCode getIconSvgString config = Throw e -> e = URIError.
Proof.
  intros Ht. unfold generateWidgetCode, html.
  rewrite (enabledPlatforms_typed config Ht). cbn [bind].
  destruct (mapM (platform_item getIconSvgString config) (shown config))
    as [items|ex] eqn:Hm; cbn [bind]; [discriminate|].
  intros H. injection H as <-.
  apply (mapM_throws (platform_item getIconSvgString config) (shown config) URIError);
    [|exact Hm].
  intros p e'. unfold platform_item, platformOf.
  destruct (get (id p) (platforms config)) as [pc|] eqn:Hp; cbn [bind].
  - destruct (getPlatformLink (id p) pc) as [link|ex'] eqn:Hl; cbn [bind]; [discriminate|].
    intros H. injection H as <-. apply (getPlatformLink_throws (id p) pc). exact Hl.
  - exfalso. destruct Ht as [_ Hall].
    destruct (proj1 (get_In_keys (id p) (platforms config)) (Hall (id p))) as [pc' E].
    congruence.
Qed.

Lemma session_keys (es : list Edit) :
  forall c, keys (platforms c) = canonical ->
            exists c', session es c = Some c' /\ keys (platforms c') = canonical.
Proof.
  induction es as [|e es IH]; intros c Hk.
  - exists c. split; [reflexivity | exact Hk].
  - destruct (apply_edit_keys e c Hk) as [c1 [H1 Hk1]].
    destruct (IH c1 Hk1) as [c' [H' Hk']].
    exists c'. cbn [session]. rewrite H1. split; [exact H' | exact Hk'].
Qed.

End SessionFacts.

(** X14.  Whatever the edits made from the default configuration, in any
    number and order, every edit succeeds and the configuration keeps one
    entry for each platform, in the order of [PLATFORMS].  On every
    configuration the form can reach, the validation pass therefore
    returns, and the generator returns or throws the URIError of an
    unencodable message, never a TypeError for a missing entry. *)
Theorem sessions_keep_every_platform :
  forall (es : list Edit),
    exists config,
      session es DEFAULT_CONFIG = Some config
      /\ keys (platforms config) = canonical
      /\ (forall URL_hostname, exists errs,
             validationErrors URL_hostname config = Ok errs)
      /\ (forall getIconSvgString,
             (exists out, generateWidgetCode getIconSvgString config = Ok out)
             \/ generateWidgetCode getIconSvgString config = Throw URIError).
Proof.
  intros es.
  destruct (session_keys es DEFAULT_CONFIG eq_refl) as [c [Hs Hk]].
  exists c. split; [exact Hs|]. split; [exact Hk|].
  pose proof (typed_canonical (platforms c) Hk) as Ht.
  split.
  - intros U.
    assert (Hget : forall p, exists pc, get p (platforms c) = Some pc)
      by (intros p; apply get_In_keys, Ht).
    destruct (collectErrors_entries U c Hget PLATFORMS []) as [errs [Herrs _]].
    { unfold PLATFORMS. simpl. repeat constructor; simpl; intuition discriminate. }
    { intros q _. reflexivity. }
    exists errs. exact Herrs.
  - intros icons.
    destruct (generateWidgetCode icons c) as [out|e] eqn:E; [left; exists out; reflexivity|].
    right. rewrite (generateWidgetCode_throws icons c e Ht E). reflexivity.
Qed.

(** ** Accepted contacts and markup *)

Section MarkupFacts.

Lemma white_space_not_markup (c : N) : isWhiteSpace c = true -> isMarkup c = false.
Proof.
  intros H. apply isWhiteSpace_not_graphic in H.
  unfold isMarkup. change (code "<") with 60%N. change (code ">") with 62%N.
  change (code "&") with 38%N.
  rewrite !orb_false_iff, !N.eqb_neq. lia.
Qed.

Lemma uri_safe_not_markup (c : N) : isUriSafe c = true -> isMarkup c = false.
Proof.
  unfold isUriSafe, isUnescaped, isMarkup.
  rewrite !orb_true_iff, !orb_false_iff, !N.eqb_eq, !N.eqb_neq, !between_iff.
  change (code "<") with 60%N. change (code ">") with 62%N.
  change (code "&") with 38%N. change (code "-") with 45%N.
  change (code "_") with 95%N. change (code ".") with 46%N.
  change (code "!") with 33%N. change (code "~") with 126%N.
  change (code "*") with 42%N. change (code "'") with 39%N.
  change (code "(") with 40%N. change (code ")") with 41%N.
  change (code "%") with 37%N.
  lia.
Qed.

Lemma phone_char_not_markup (c : N) : Patterns.isPhoneChar c = true -> isMarkup c = false.
Proof.
  unfold Patterns.isPhoneChar. rewrite !orb_true_iff.
  intros [[[[[H|H]|H]|H]|H]|H].
  - apply uri_safe_not_markup. unfold isUriSafe, isUnescaped.
    unfold isDigit in H. rewrite H. rewrite !orb_true_r. reflexivity.
  - apply white_space_not_markup, H.
  - apply N.eqb_eq in H. subst c. reflexivity.
  - apply N.eqb_eq in H. subst c. reflexivity.
  - apply N.eqb_eq in H. subst c. reflexivity.
  - apply N.eqb_eq in H. subst c. reflexivity.
Qed.

Lemma word_char_not_markup (c : N) : isWordChar c = true -> isMarkup c = false.
Proof.
  intros H. apply uri_safe_not_markup. unfold isUriSafe, isUnescaped.
  unfold isWordChar in H. rewrite !orb_true_iff in H.
  destruct H as [[[H|H]|H]|H].
  - rewrite H. reflexivity.
  - rewrite H. rewrite !orb_true_r. reflexivity.
  - rewrite H. rewrite !orb_true_r. reflexivity.
  - apply N.eqb_eq in H. subst c. reflexivity.
Qed.

Lemma markupFree_app (a b : jsstring) :
  markupFree (a ++ b) = markupFree a && markupFree b.
Proof. apply forallb_app. Qed.

Lemma markupFree_class (p : N -> bool) (s : jsstring) :
  (forall c, p c = true -> isMarkup c = false) ->
  forallb p s = true -> markupFree s = true.
Proof.
  intros Hp H. apply forallb_forall. intros c Hc.
  rewrite forallb_forall in H. rewrite (Hp c (H c Hc)). reflexivity.
Qed.

(** A string is free of markup when its trimmed part is. *)
Lemma markupFree_trim (s : jsstring) :
  markupFree (trim s) = true -> markupFree s = true.
Proof.
  intros H. destruct (trim_decompose s) as [pre [suf [E [Hpre Hsuf]]]].
  rewrite E, !markupFree_app, H.
  rewrite (markupFree_class isWhiteSpace pre white_space_not_markup Hpre).
  rewrite (markupFree_class isWhiteSpace suf white_space_not_markup Hsuf).
  reflexivity.
Qed.

Lemma markupFree_filter (p : N -> bool) (s : jsstring) :
  markupFree s = true -> markupFree (filter p s) = true.
Proof.
  unfold markupFree. rewrite !forallb_forall. intros H c Hc.
  apply filter_In in Hc. apply H, Hc.
Qed.

End MarkupFacts.

(** X15.  A contact id that the WhatsApp, Telegram or phone validator
    accepts gives a link with no double quote, [<], [>] or [&] in it, with
    or without a pre-filled message: the link cannot leave the [href]
    attribute the generator puts it in. *)
Theorem accepted_contact_link_has_no_markup :
  forall (URL_hostname : jsstring -> result jsstring) (p : Platform)
         (pConfig : PlatformConfig) (link : jsstring),
    p = whatsapp \/ p = telegram \/ p = phone ->
    getValidationError URL_hostname p pConfig = None ->
    (forall message, predefinedMessage pConfig = Some message ->
                     forallb isCodeUnit message = true) ->
    getPlatformLink p pConfig = Ok link ->
    markupFree link = true.
Proof.
  intros U p pc link Hp Hv Hm Hl.
  unfold getValidationError in Hv. cbv zeta in Hv. rewrite or_else_nil in Hv.
  assert (Hc : markupFree (contactId pc) = true).
  { apply markupFree_trim. destruct Hp as [-> | [-> | ->]].
    - apply validators_whatsapp_None in Hv. destruct Hv as [_ [Hd _]].
      apply (markupFree_class isWordChar); [exact word_char_not_markup|].
      apply forallb_forall. intros c Hc. apply isWordChar_iff.
      right. right. left. apply Hd, Hc.
    - apply validators_telegram_None in Hv. destruct Hv as [Hd _].
      apply (markupFree_class isWordChar); [exact word_char_not_markup|].
      apply forallb_forall. intros c Hc. apply isWordChar_iff. apply Hd, Hc.
    - apply validators_phone_None in Hv. destruct Hv as [_ [Hd _]].
      apply (markupFree_class Patterns.isPhoneChar); [exact phone_char_not_markup|].
      exact Hd. }
  destruct Hp as [-> | [-> | ->]].
  - unfold getPlatformLink in Hl. cbv zeta in Hl.
    destruct (predefinedMessage pc) as [msg|] eqn:Emsg.
    + destruct (truthy msg).
      * destruct (encodeURIComponent msg) as [enc|ex] eqn:Eenc; cbn [bind] in Hl;
          [|discriminate].
        assert (E : link = lit "https://wa.me/" ++ contactId pc ++ lit "?text=" ++ enc)
          by congruence.
        rewrite E, !markupFree_app, Hc.
        rewrite (markupFree_class isUriSafe enc uri_safe_not_markup
                   (encodeURIComponent_safe msg (Hm msg eq_refl) enc Eenc)).
        reflexivity.
      * assert (E : link = lit "https://wa.me/" ++ contactId pc) by congruence.
        rewrite E, markupFree_app, Hc. reflexivity.
    + assert (E : link = lit "https://wa.me/" ++ contactId pc) by congruence.
      rewrite E, markupFree_app, Hc. reflexivity.
  - assert (E : link = lit "https://t.me/" ++ contactId pc)
      by (unfold getPlatformLink in Hl; congruence).
    rewrite E, markupFree_app, Hc. reflexivity.
  - rewrite phone_link_payload in Hl.
    assert (E : link = lit "tel:" ++ filter notWhiteSpace (contactId pc)) by congruence.
    rewrite E, markupFree_app, (markupFree_filter notWhiteSpace _ Hc). reflexivity.
Qed.

Lemma accepted_contact_link_has_no_markup_witness :
  markupFree (lit "https://wa.me/15551234567?text=%3Cb%3E%22Hi%22%20%26%20bye") = true.
Proof.
  refine (accepted_contact_link_has_no_markup (fun _ => Throw TypeError) whatsapp
            (whatsapp_with (lit "15551234567") (Some (lit "<b>`Hi` & bye")))
            (lit "https://wa.me/15551234567?text=%3Cb%3E%22Hi%22%20%26%20bye")
            (or_introl eq_refl) eq_refl _ eq_refl).
  intros message H. injection H as <-. reflexivity.
Defined.

(** ** Edits of the top-level fields *)

(** X16.  An edit of a top-level field, through [handleInputChange],
    [handleColorChange] or [handleRadioChange], never changes what the
    validation pass reports, and changes at most one section of the
    generated code: the button colour, position, animation, shape and
    spacing are read by the style sheet only, the header text, the header
    colours and the icon colour by the markup only. *)
Theorem top_level_edit_touches_one_section :
  forall (URL_hostname : jsstring -> result jsstring)
         (getIconSvgString : Platform -> jsstring -> jsstring)
         (fv : TopFieldValue) (config : WidgetConfig),
    validationErrors URL_hostname (handleRadioChange fv config)
    = validationErrors URL_hostname config
    /\ if isStyleField fv
       then html getIconSvgString (handleRadioChange fv config)
            = html getIconSvgString config
       else css (handleRadioChange fv config) = css config.
Proof.
  intros U icons fv config. split.
  - destruct fv; reflexivity.
  - destruct fv; cbn [isStyleField]; reflexivity.
Qed.

(** ** The colour of the text on a platform's colour *)

Section ColourFacts.

Import Colour.

Lemma hexValue_Some (c : N) (v : Z) :
  hexValue c = Some v ->
  (0 <= v <= 15)%Z /\ (48 <= c <= 102)%N.
Proof.
  unfold hexValue.
  destruct (between 48 57 c) eqn:E1.
  { apply between_iff in E1. intros H. injection H as <-. lia. }
  destruct (between 97 102 c) eqn:E2.
  { apply between_iff in E2. intros H. injection H as <-. lia. }
  destruct (between 65 70 c) eqn:E3; [|discriminate].
  apply between_iff in E3. intros H. injection H as <-. lia.
Qed.

Lemma hexValue_not_white_space (c : N) (v : Z) :
  hexValue c = Some v -> isWhiteSpace c = false.
Proof.
  intros H. apply hexValue_Some in H. destruct H as [_ H].
  destruct (isWhiteSpace c) eqn:E; [|reflexivity].
  apply isWhiteSpace_not_graphic in E. lia.
Qed.

Lemma hexValue_x (c : N) (v : Z) :
  hexValue c = Some v -> ((c =? code "x") || (c =? code "X"))%N = false.
Proof.
  unfold hexValue. change (code "x") with 120%N. change (code "X") with 88%N.
  intros H. apply orb_false_iff. rewrite !N.eqb_neq.
  split; intros ->; discriminate H.
Qed.

Lemma hexValue_sign (c : N) (v : Z) :
  hexValue c = Some v -> (c =? code "+")%N = false /\ (c =? code "-")%N = false.
Proof.
  unfold hexValue. change (code "+") with 43%N. change (code "-") with 45%N.
  intros H. rewrite !N.eqb_neq. split; intros ->; discriminate H.
Qed.

(** [parseInt] of two hexadecimal digits is their value. *)
Lemma parseInt16_pair (c1 c2 : N) (v : Z) :
  hexPair c1 c2 = Some v ->
  parseInt16 [c1; c2] = Some v /\ (0 <= v <= 255)%Z.
Proof.
  unfold hexPair.
  destruct (hexValue c1) as [v1|] eqn:H1; [|discriminate].
  destruct (hexValue c2) as [v2|] eqn:H2; [|discriminate].
  intros H. assert (E : v = (16 * v1 + v2)%Z) by congruence. clear H. subst v.
  pose proof (hexValue_Some c1 v1 H1) as [B1 _].
  pose proof (hexValue_Some c2 v2 H2) as [B2 _].
  split; [|lia].
  unfold parseInt16. cbn [trimStart dropWhile].
  rewrite (hexValue_not_white_space c1 v1 H1).
  destruct (hexValue_sign c1 v1 H1) as [-> ->]. cbn [orb].
  rewrite (hexValue_x c2 v2 H2), andb_false_r.
  cbn [takeWhile]. unfold isHexDigit. rewrite H1, H2.
  unfold digitsValue. cbn [fold_left]. rewrite H1, H2.
  f_equal. lia.
Qed.

(** [parseInt] of a string that starts with neither a digit, a sign nor
    white space is NaN. *)
Lemma parseInt16_NaN (c : N) (rest : jsstring) :
  isHexDigit c = false -> isWhiteSpace c = false ->
  (c =? code "+")%N = false -> (c =? code "-")%N = false ->
  parseInt16 (c :: rest) = None.
Proof.
  intros Hh Hw Hp Hm.
  assert (H0 : (c =? code "0")%N = false).
  { apply N.eqb_neq. intros ->. discriminate Hh. }
  unfold parseInt16. cbn [trimStart dropWhile]. rewrite Hw, Hp, Hm. cbn [orb].
  destruct rest as [|c2 rest].
  - cbn [takeWhile]. rewrite Hh. reflexivity.
  - rewrite H0. cbn [andb takeWhile]. rewrite Hh. reflexivity.
Qed.

Lemma yiq_NaN (r g b : number) :
  r = None \/ g = None \/ b = None -> yiq_at_least_128 r g b = false.
Proof.
  intros [-> | [-> | ->]]; [reflexivity | destruct r; reflexivity |].
  destruct r; [destruct g|]; reflexivity.
Qed.

End ColourFacts.

(** X17.  For a colour written [#RRGGBB], the text put on it is the dark
    [#111827] when 299 R + 587 G + 114 B is at least 128000, and white
    otherwise, with R, G and B the values of the three pairs of
    hexadecimal digits, in either case of the letters.  The first
    character and whatever follows the six digits are not looked at. *)
Theorem contrasting_text_colour_rule :
  forall (h r1 r2 g1 g2 b1 b2 : N) (rest : jsstring) (R G B : Z),
    hexPair r1 r2 = Some R -> hexPair g1 g2 = Some G -> hexPair b1 b2 = Some B ->
    Colour.getContrastingTextColor (h :: r1 :: r2 :: g1 :: g2 :: b1 :: b2 :: rest)
    = (if (128000 <=? 299 * R + 587 * G + 114 * B)%Z
       then lit "#111827" else lit "#FFFFFF")
    /\ (0 <= R <= 255 /\ 0 <= G <= 255 /\ 0 <= B <= 255)%Z.
Proof.
  intros h r1 r2 g1 g2 b1 b2 rest R G B HR HG HB.
  destruct (parseInt16_pair r1 r2 R HR) as [PR BR].
  destruct (parseInt16_pair g1 g2 G HG) as [PG BG].
  destruct (parseInt16_pair b1 b2 B HB) as [PB BB].
  split; [|lia].
  unfold Colour.getContrastingTextColor.
  cbn [truthy negb List.length Nat.ltb Nat.leb orb Colour.slice Nat.sub skipn firstn].
  rewrite PR, PG, PB. cbn [Colour.yiq_at_least_128].
  replace (R * 299 + G * 587 + B * 114)%Z with (299 * R + 587 * G + 114 * B)%Z by lia.
  reflexivity.
Qed.

Lemma contrasting_text_colour_rule_witness :
  Colour.getContrastingTextColor (lit "#25D366") = lit "#111827"
  /\ (0 <= 37 <= 255 /\ 0 <= 211 <= 255 /\ 0 <= 102 <= 255)%Z.
Proof.
  exact (contrasting_text_colour_rule (code "#") (code "2") (code "5") (code "D")
           (code "3") (code "6") (code "6") [] 37 211 102 eq_refl eq_refl eq_refl).
Defined.

(** X18.  The text colour is black exactly for the colours of fewer than
    seven characters, the empty one and the three-digit form [#RGB]
    included. *)
Theorem short_colour_gets_black_text :
  forall hexColor : jsstring,
    Colour.getContrastingTextColor hexColor = lit "#000000"
    <-> List.length hexColor < 7.
Proof.
  intros s. unfold Colour.getContrastingTextColor.
  destruct (List.length s <? 7) eqn:E.
  - rewrite orb_true_r. apply Nat.ltb_lt in E. split; [intros _; exact E | reflexivity].
  - apply Nat.ltb_ge in E. destruct s as [|c s]; [simpl in E; lia|].
    cbn [truthy negb orb]. cbv zeta.
    destruct (Colour.yiq_at_least_128 _ _ _); split; intros H;
      solve [lia | vm_compute in H; discriminate H].
Qed.

(** X19.  Where one of the three pairs starts with a character that is
    neither a hexadecimal digit, a sign nor white space, as in [rgb(...)]
    or a colour name, the component is NaN, the comparison with 128 fails
    and the text is white, whatever the other characters. *)
Theorem unreadable_colour_gets_white_text :
  forall (h r1 r2 g1 g2 b1 b2 c : N) (rest : jsstring),
    c = r1 \/ c = g1 \/ c = b1 ->
    Colour.isHexDigit c = false -> isWhiteSpace c = false ->
    c <> code "+" -> c <> code "-" ->
    Colour.getContrastingTextColor (h :: r1 :: r2 :: g1 :: g2 :: b1 :: b2 :: rest)
    = lit "#FFFFFF".
Proof.
  intros h r1 r2 g1 g2 b1 b2 c rest Hc Hh Hw Hp Hm.
  apply N.eqb_neq in Hp. apply N.eqb_neq in Hm.
  unfold Colour.getContrastingTextColor.
  cbn [truthy negb List.length Nat.ltb Nat.leb orb Colour.slice Nat.sub skipn firstn].
  rewrite yiq_NaN; [reflexivity|].
  destruct Hc as [<- | [<- | <-]]; [left | right; left | right; right];
    apply parseInt16_NaN; assumption.
Qed.

Lemma unreadable_colour_gets_white_text_witness :
  Colour.getContrastingTextColor (lit "rgb(0,0,0)") = lit "#FFFFFF".
Proof.
  refine (unreadable_colour_gets_white_text (code "r") (code "g") (code "b") (code "(")
            (code "0") (code ",") (code "0") (code "g") (lit ",0)")
            (or_introl eq_refl) eq_refl eq_refl _ _); discriminate.
Defined.

(** ** The code panel *)

Section ShownCodeFacts.

Lemma replaceEvery_app (c : N) (by_ a b : jsstring) :
  replaceEvery c by_ (a ++ b) = replaceEvery c by_ a ++ replaceEvery c by_ b.
Proof. apply flat_map_app. Qed.

Lemma shownCode_app (a b : jsstring) : shownCode (a ++ b) = shownCode a ++ shownCode b.
Proof. unfold shownCode. rewrite !replaceEvery_app. reflexivity. Qed.

Lemma shownCode_cons (c : N) (s : jsstring) :
  shownCode (c :: s)
  = (if (c =? code "<")%N then lit "&lt;"
     else if (c =? code ">")%N then lit "&gt;" else [c]) ++ shownCode s.
Proof.
  change (c :: s) with ([c] ++ s). rewrite shownCode_app. f_equal.
  unfold shownCode, replaceEvery. cbn [flat_map].
  destruct (c =? code "<")%N; [reflexivity|].
  cbn [app flat_map]. destruct (c =? code ">")%N; reflexivity.
Qed.

Lemma angleBrackets_app (a b : jsstring) :
  angleBrackets (a ++ b) = angleBrackets a + angleBrackets b.
Proof. unfold angleBrackets. rewrite filter_app, length_app. reflexivity. Qed.

Lemma angleBrackets_cons (c : N) (s : jsstring) :
  angleBrackets (c :: s)
  = (if ((c =? code "<") || (c =? code ">"))%N then 1 else 0) + angleBrackets s.
Proof.
  unfold angleBrackets. cbn [filter].
  destruct ((c =? code "<") || (c =? code ">"))%N; reflexivity.
Qed.

Lemma shownCode_no_angle_brackets (s : jsstring) : angleBrackets (shownCode s) = 0.
Proof.
  induction s as [|c s IH]; [reflexivity|].
  rewrite shownCode_cons, angleBrackets_app, IH.
  destruct (c =? code "<")%N eqn:E1; [reflexivity|].
  destruct (c =? code ">")%N eqn:E2; [reflexivity|].
  rewrite angleBrackets_cons, E1, E2. reflexivity.
Qed.

Lemma shownCode_length (s : jsstring) :
  List.length (shownCode s) = List.length s + 3 * angleBrackets s.
Proof.
  induction s as [|c s IH]; [reflexivity|].
  rewrite shownCode_cons, length_app, IH, angleBrackets_cons.
  destruct (c =? code "<")%N eqn:E1; [cbn [orb]; simpl; lia|].
  destruct (c =? code ">")%N eqn:E2; cbn [orb]; simpl; lia.
Qed.

Lemma shownCode_fixed (s : jsstring) : angleBrackets s = 0 -> shownCode s = s.
Proof.
  induction s as [|c s IH]; [reflexivity|].
  rewrite angleBrackets_cons, shownCode_cons.
  destruct (c =? code "<")%N eqn:E1; [cbn [orb]; discriminate|].
  destruct (c =? code ">")%N eqn:E2; [cbn [orb]; discriminate|].
  cbn [orb Nat.add app]. intros H. rewrite (IH H). reflexivity.
Qed.

End ShownCodeFacts.

(** X20.  The text the code panel hands to React holds no [<] and no [>]:
    each of them has become a four-character entity, so the text is the
    code itself exactly when the code has no angle bracket.  The ampersand
    is left as it is. *)
Theorem shown_code_has_no_angle_brackets :
  forall code_ : jsstring,
    angleBrackets (shownCode code_) = 0
    /\ List.length (shownCode code_) = List.length code_ + 3 * angleBrackets code_
    /\ (shownCode code_ = code_ <-> angleBrackets code_ = 0)
    /\ shownCode (code_ ++ lit "&") = shownCode code_ ++ lit "&".
Proof.
  intros s. split; [apply shownCode_no_angle_brackets|].
  split; [apply shownCode_length|]. split.
  - split; [|apply shownCode_fixed].
    intros H. pose proof (shownCode_length s) as L. rewrite H in L. lia.
  - rewrite shownCode_app. reflexivity.
Qed.

(** X21.  The code panel never shows the snippet as it is copied: every
    generated snippet starts with the comment
    [<!-- Start Social Contact Widget -->], which the panel turns into
    [&lt;!-- Start Social Contact Widget --&gt;], and the text of the panel
    is longer than the snippet. *)
Theorem generated_code_is_shown_escaped :
  forall (getIconSvgString : Platform -> jsstring -> jsstring)
         (config : WidgetConfig) (out : jsstring),
    generateWidgetCode getIconSvgString config = Ok out ->
    exists body,
      out = lit "<!-- Start Social Contact Widget -->" ++ body
      /\ shownCode out = lit "&lt;!-- Start Social Contact Widget --&gt;" ++ shownCode body
      /\ List.length out < List.length (shownCode out).
Proof.
  intros icons config out H. unfold generateWidgetCode in H.
  destruct (html icons config) as [markup|ex]; cbn [bind] in H; [|discriminate].
  assert (E : out = bundle markup (css config) js) by congruence. clear H.
  assert (Eb : out = lit "<!-- Start Social Contact Widget -->" ++ skipn 36 out)
    by (rewrite E; reflexivity).
  clear E. exists (skipn 36 out). split; [exact Eb|].
  assert (Ha : 1 <= angleBrackets out).
  { rewrite Eb, angleBrackets_app.
    change (angleBrackets (lit "<!-- Start Social Contact Widget -->")) with 2. lia. }
  split.
  - rewrite Eb at 1. rewrite shownCode_app. reflexivity.
  - rewrite shownCode_length. lia.
Qed.

Lemma generated_code_is_shown_escaped_witness :
  exists out body,
    generateWidgetCode plain_icon DEFAULT_CONFIG = Ok out
    /\ out = lit "<!-- Start Social Contact Widget -->" ++ body
    /\ shownCode out = lit "&lt;!-- Start Social Contact Widget --&gt;" ++ shownCode body
    /\ List.length out < List.length (shownCode out).
Proof.
  destruct (generateWidgetCode plain_icon DEFAULT_CONFIG) as [out|ex] eqn:E;
    [|vm_compute in E; discriminate E].
  destruct (generated_code_is_shown_escaped plain_icon DEFAULT_CONFIG out E)
    as [body H].
  exists out, body. split; [reflexivity | exact H].
Defined.

(** ** The default configuration *)

(** X22.  The form starts without an error message and none appears when
    a platform of the default configuration is switched on or off: each
    default contact id, that of the disabled phone and e-mail platforms
    included, is accepted by the validator of its platform. *)
Theorem default_configuration_is_valid :
  forall (URL_hostname : jsstring -> result jsstring),
    validationErrors URL_hostname DEFAULT_CONFIG = Ok []
    /\ (forall p : Platform,
          exists pConfig,
            get p (platforms DEFAULT_CONFIG) = Some pConfig
            /\ getValidationError URL_hostname p pConfig = None)
    /\ (forall p : Platform,
          exists next,
            handlePlatformToggle p DEFAULT_CONFIG = Ok next
            /\ validationErrors URL_hostname next = Ok []).
Proof.
  intros U. split; [reflexivity|]. split.
  - intros p. destruct p; eexists; (split; [reflexivity | vm_compute; reflexivity]).
  - intros p. destruct p; eexists; (split; [reflexivity | vm_compute; reflexivity]).
Qed.

(** ** The animations *)

(** X23.  Each animation other than [none] adds one block: the rule of
    [.scw-fab] whose one declaration is [animation:] with the name [scw-]
    followed by the animation's own name and a timing, then the
    [@keyframes] definition of that same name, with balanced frames and no
    further definition inside; [none] adds nothing, and no two animations
    add the same text. *)
Theorem animation_css_is_one_rule_and_its_keyframes :
  forall a b : ButtonAnimation,
    (getAnimationCss a = [] <-> a = none)
    /\ match a with
       | none => getAnimationCss a = []
       | _ => is_animation_block (keyframesName a) (getAnimationCss a)
       end
    /\ occurrences (lit "@keyframes") (getAnimationCss a)
       = (if jsstring_eqb (getAnimationCss a) [] then 0 else 1)
    /\ occurrences (lit "animation:") (getAnimationCss a)
       = (if jsstring_eqb (getAnimationCss a) [] then 0 else 1)
    /\ occurrences (lit ".scw-fab {") (getAnimationCss a)
       = (if jsstring_eqb (getAnimationCss a) [] then 0 else 1)
    /\ occurrences (lit "animation: " ++ keyframesName a ++ lit " ") (getAnimationCss a)
       = occurrences (lit "@keyframes " ++ keyframesName a ++ lit " {") (getAnimationCss a)
    /\ occurrences (lit "@keyframes " ++ keyframesName a ++ lit " {") (getAnimationCss a)
       = occurrences (lit "@keyframes") (getAnimationCss a)
    /\ (getAnimationCss a = getAnimationCss b <-> a = b).
Proof.
  intros a b.
  split; [destruct a; split; intros H; solve [reflexivity | discriminate H]|].
  split; [destruct a; solve [reflexivity | apply getAnimationCss_block; discriminate]|].
  split; [destruct a; vm_compute; reflexivity|].
  split; [destruct a; vm_compute; reflexivity|].
  split; [destruct a; vm_compute; reflexivity|].
  split; [destruct a; vm_compute; reflexivity|].
  split; [destruct a; vm_compute; reflexivity|].
  split; [|intros ->; reflexivity].
  destruct a, b; intros H; solve [reflexivity | vm_compute in H; discriminate H].
Qed.
